(** * rules.d: the rule loader and the rule analyzer

    A shallow embedding of [src/utils/rule-loader.ts] (class [RuleLoader]) and
    [src/analyzer/rule-analyzer.ts] (class [RuleAnalyzer]) over the types of
    [src/types/rule.ts], followed by the properties of the metadata
    extraction, of the index queries and of the bundle recommendation.

    Conventions.
    - A JavaScript string is a Rocq [string]: a sequence of 8-bit characters.
      Case mapping and the whitespace class act on the ASCII range; every
      other character is left alone and is not whitespace.
    - Values read from the front matter have the types [RuleMetadata]
      declares for them; an absent field is [None].  JavaScript truthiness is
      kept where the code relies on it: the empty string is falsy, an array
      (even an empty one) is truthy.
    - Arrays of rules are objects: they live in a store and are named by
      their address, so that in-place operations ([push], [sort]) and
      aliasing are visible. *)

From Stdlib Require Import ZArith Ascii String.
From stdpp Require Import base option list sorting strings gmap.

(** ** Built-ins of the JavaScript string and array objects *)

Module Js.

(** [s.includes(search)]: [search] occurs in [s] as a substring. *)
Fixpoint includes (s search : string) : bool :=
  String.prefix search s
  || match s with
     | EmptyString => false
     | String _ rest => includes rest search
     end.

Definition lowerChar (c : ascii) : ascii :=
  let n := nat_of_ascii c in
  if (65 <=? n)%nat && (n <=? 90)%nat then ascii_of_nat (n + 32) else c.

(** [c.toUpperCase()] for one character, as the code's on 7-bit characters.
    Outside that range the code's case mapping follows Unicode (it can even
    change the length); statements about the result of [formatTitle] are
    therefore made for 7-bit file names. *)
Definition upperChar (c : ascii) : ascii :=
  let n := nat_of_ascii c in
  if (97 <=? n)%nat && (n <=? 122)%nat then ascii_of_nat (n - 32) else c.

(** [s.toLowerCase()] *)
Fixpoint toLowerCase (s : string) : string :=
  match s with
  | EmptyString => EmptyString
  | String c rest => String (lowerChar c) (toLowerCase rest)
  end.

(** [s.split(sep)] for a one-character separator: never the empty array,
    [''.split(sep)] is [['']]. *)
Fixpoint split (sep : ascii) (s : string) : list string :=
  match s with
  | EmptyString => [EmptyString]
  | String c rest =>
      if bool_decide (c = sep) then EmptyString :: split sep rest
      else match split sep rest with
           | w :: ws => String c w :: ws
           | [] => [String c EmptyString]
           end
  end.

(** [parts.join(sep)] *)
Fixpoint join (sep : string) (parts : list string) : string :=
  match parts with
  | [] => EmptyString
  | [p] => p
  | p :: rest => p +:+ sep +:+ join sep rest
  end.

(** [s.replace(/c/g, d)] for single characters. *)
Fixpoint replaceAll (c d : ascii) (s : string) : string :=
  match s with
  | EmptyString => EmptyString
  | String x rest =>
      String (if bool_decide (x = c) then d else x) (replaceAll c d rest)
  end.

(** The line terminators and the white space of the regular expression
    grammar among the 7-bit characters ([\n], [\r]; [\s] adds tab, vertical
    tab, form feed, space).  The code's classes also hold characters beyond
    that range (U+2028, U+2029, U+00A0, U+FEFF and the other Unicode
    spaces); statements about the text [extractTitle] returns are therefore
    made for 7-bit text. *)
Definition isLineTerminator (c : ascii) : bool :=
  let n := nat_of_ascii c in (n =? 10)%nat || (n =? 13)%nat.

Definition isWhiteSpace (c : ascii) : bool :=
  let n := nat_of_ascii c in
  ((9 <=? n)%nat && (n <=? 13)%nat) || (n =? 32)%nat.

Fixpoint trimStart (s : string) : string :=
  match s with
  | EmptyString => EmptyString
  | String c rest => if isWhiteSpace c then trimStart rest else s
  end.

(** [s.trim()] *)
Definition trim (s : string) : string :=
  String.rev (trimStart (String.rev (trimStart s))).

(** Truthiness of a string: the empty string is falsy. *)
Definition truthy (s : string) : bool :=
  match s with EmptyString => false | _ => true end.

(** [a || b] where [a] is a string or undefined and [b] is a string. *)
Definition orElse (a : option string) (b : string) : string :=
  match a with
  | Some s => if truthy s then s else b
  | None => b
  end.

(** [arr.includes(x)] on an array of strings. *)
Definition arrayIncludes (arr : list string) (x : string) : bool :=
  existsb (fun y => bool_decide (y = x)) arr.

(** [arr.some(p)] *)
Definition some {A} (p : A -> bool) (arr : list A) : bool := existsb p arr.

End Js.

(** ** src/types/rule.ts *)

Inductive Difficulty := beginner | intermediate | advanced | expert.

Inductive Priority := critical | high | medium | low.

(** [language: string | string[]] *)
Inductive Language :=
  | LangOne (l : string)
  | LangMany (ls : list string).

Record Applicability := {
  ap_scenarios : option (list string);
  ap_frameworks : option (list string);
  ap_environments : option (list string);
}.

Record Reference := {
  ref_title : string;
  ref_url : string;
  ref_description : option string;
}.

(** [RuleCategory] is a union of string literals; at run time a category is
    a string, and membership of the union is [validCategories] below. *)
Record RuleMetadata := {
  md_id : string;
  md_title : string;
  md_description : option string;
  md_category : string;
  md_subcategory : option string;
  md_language : Language;
  md_tags : list string;
  md_difficulty : option Difficulty;
  md_priority : option Priority;
  md_applicability : option Applicability;
  md_prerequisites : option (list string);
  md_related : option (list string);
  md_outcomes : option (list string);
  md_version : option string;
  md_lastUpdated : option string;
  md_author : option string;
  md_references : option (list Reference);
}.

Record Rule := {
  metadata : RuleMetadata;
  content : string;
  filePath : string;
}.

(** [ScenarioContext]; [type] is declared mandatory but the analyzer guards
    every use of it, so it is optional here as well. *)
Record ScenarioContext := {
  ctx_type : option string;
  ctx_language : option string;
  ctx_framework : option string;
  ctx_priorities : option (list string);
}.

#[global] Instance Difficulty_eq_dec : EqDecision Difficulty.
Proof. solve_decision. Defined.
#[global] Instance Priority_eq_dec : EqDecision Priority.
Proof. solve_decision. Defined.
#[global] Instance Language_eq_dec : EqDecision Language.
Proof. solve_decision. Defined.
#[global] Instance Applicability_eq_dec : EqDecision Applicability.
Proof. solve_decision. Defined.
#[global] Instance Reference_eq_dec : EqDecision Reference.
Proof. solve_decision. Defined.
#[global] Instance RuleMetadata_eq_dec : EqDecision RuleMetadata.
Proof. solve_decision. Defined.
#[global] Instance Rule_eq_dec : EqDecision Rule.
Proof. solve_decision. Defined.

(** ** src/utils/rule-loader.ts *)

(** What [matter(fileContent)] hands to [generateMetadata]: the [data] of
    the YAML header, every field optional. *)
Record Frontmatter := {
  fm_id : option string;
  fm_title : option string;
  fm_description : option string;
  fm_category : option string;
  fm_subcategory : option string;
  fm_language : option Language;
  fm_tags : option (list string);
  fm_difficulty : option Difficulty;
  fm_priority : option Priority;
  fm_applicability : option Applicability;
  fm_prerequisites : option (list string);
  fm_related : option (list string);
  fm_outcomes : option (list string);
  fm_version : option string;
  fm_lastUpdated : option string;
  fm_author : option string;
  fm_references : option (list Reference);
}.

(** A header that declares nothing (also what a document without a header
    parses to). *)
Definition noFrontmatter : Frontmatter :=
  {| fm_id := None; fm_title := None; fm_description := None;
     fm_category := None; fm_subcategory := None; fm_language := None;
     fm_tags := None; fm_difficulty := None; fm_priority := None;
     fm_applicability := None; fm_prerequisites := None; fm_related := None;
     fm_outcomes := None; fm_version := None; fm_lastUpdated := None;
     fm_author := None; fm_references := None |}.

Module RuleLoader.

(** [path.sep] on POSIX. *)
Definition sep : ascii := "/"%char.

(** [path.basename(filePath, '.md')] for the path of a file: the last
    segment, without a trailing [.md] when something precedes it. *)
Definition stripMd (seg : string) : string :=
  let n := String.length seg in
  if (3 <? n)%nat && bool_decide (String.substring (n - 3) 3 seg = ".md")
  then String.substring 0 (n - 3) seg
  else seg.

Definition basename (filePath : string) : string :=
  stripMd (List.last (Js.split sep filePath) EmptyString).

Definition validCategories : list string :=
  [ "general"; "coding"; "writing"; "research"; "communication"; "data";
    "project-management"; "security"; "devops" ].

Definition inferCategory (dirName : string) : string :=
  if Js.arrayIncludes validCategories dirName then dirName else "general".

(** [content.match(/^#\s+(.+)$/m)], by backtracking.
    [dotPlusEol s]: [(.+)$] at [s], the longest non-empty run without a line
    terminator (a shorter run stops before a character that is not a line
    end, where [$] fails). *)
Fixpoint untilEol (s : string) : string :=
  match s with
  | EmptyString => EmptyString
  | String c rest =>
      if Js.isLineTerminator c then EmptyString else String c (untilEol rest)
  end.

Definition dotPlusEol (s : string) : option string :=
  let g := untilEol s in if Js.truthy g then Some g else None.

(** [\s+(.+)$] at [s]: one white space character, then greedily more of
    them, and only when that fails the group. *)
Fixpoint spacesThenGroup (s : string) : option string :=
  match s with
  | EmptyString => None
  | String c rest =>
      if Js.isWhiteSpace c then
        match spacesThenGroup rest with
        | Some g => Some g
        | None => dotPlusEol rest
        end
      else None
  end.

(** The search over start positions; [^] holds at the start of the input
    and after a line terminator. *)
Fixpoint matchHeading (lineStart : bool) (s : string) : option string :=
  match s with
  | EmptyString => None
  | String c rest =>
      let here :=
        if lineStart && bool_decide (c = "#"%char)
        then spacesThenGroup rest else None in
      match here with
      | Some g => Some g
      | None => matchHeading (Js.isLineTerminator c) rest
      end
  end.

Definition extractTitle (content : string) : option string :=
  Js.trim <$> matchHeading true content.

Definition capitalize (word : string) : string :=
  match word with
  | EmptyString => EmptyString
  | String c rest => String (Js.upperChar c) rest
  end.

Definition formatTitle (filename : string) : string :=
  Js.join " "
    (capitalize <$> Js.split " "%char (Js.replaceAll "-"%char " "%char filename)).

(** [Object.entries(languageMap)], in insertion order. *)
Definition languageMap : list (string * string) :=
  [ ("python", "python"); ("javascript", "javascript");
    ("typescript", "typescript"); ("go", "go"); ("rust", "rust");
    ("java", "java"); ("csharp", "csharp"); ("c#", "csharp") ].

Definition inferLanguage (filename content : string) : Language :=
  match
    List.find (fun kv => Js.includes (Js.toLowerCase filename) kv.1) languageMap
  with
  | Some kv => LangOne kv.2
  | None =>
      let contentLower := Js.toLowerCase content in
      let languages :=
        snd <$> List.filter (fun kv => Js.includes contentLower kv.1) languageMap in
      if (0 <? length languages)%nat then LangMany languages
      else LangOne "universal"
  end.

(** [Object.entries(commonTags)], in insertion order. *)
Definition commonTags : list (string * list string) :=
  [ ("performance", ["performance"; "optimization"]);
    ("security", ["security"]);
    ("testing", ["testing"; "tdd"; "unit-tests"]);
    ("accessibility", ["accessibility"; "a11y"]);
    ("best-practices", ["best-practices"]) ].

(** [tags.add(tag)] on a [Set] read back by [Array.from]: insertion order,
    a tag already present stays where it is. *)
Definition setAdd (tags : list string) (tag : string) : list string :=
  if Js.arrayIncludes tags tag then tags else tags ++ [tag].

Definition generateTags (filename content : string) : list string :=
  let lowerFilename := Js.toLowerCase filename in
  let lowerContent := Js.toLowerCase content in
  let tags :=
    fold_left
      (fun tags kv =>
         if Js.includes lowerFilename kv.1 || Js.includes lowerContent kv.1
         then fold_left setAdd kv.2 tags
         else tags)
      commonTags [] in
  if (length tags =? 0)%nat then setAdd tags "best-practices" else tags.

(** [generateMetadata(filePath, frontmatter, content)].  [relativePath] is
    [path.relative(this.rulesDir, filePath)]: the files come from a glob
    below [rulesDir], so it is the path as seen from there. *)
Definition generateMetadata
    (relativePath : string) (frontmatter : Frontmatter) (content : string)
    : RuleMetadata :=
  let parts := Js.split sep relativePath in
  let category := inferCategory (List.hd EmptyString parts) in
  let filename := basename relativePath in
  let title :=
    Js.orElse frontmatter.(fm_title)
      (Js.orElse (extractTitle content) (formatTitle filename)) in
  let id := Js.orElse frontmatter.(fm_id) filename in
  let language := inferLanguage filename content in
  let tags :=
    match frontmatter.(fm_tags) with
    | Some declared => declared
    | None => generateTags filename content
    end in
  {| md_id := id;
     md_title := title;
     md_description := frontmatter.(fm_description);
     md_category := category;
     md_subcategory := frontmatter.(fm_subcategory);
     md_language := language;
     md_tags := tags;
     md_difficulty := frontmatter.(fm_difficulty);
     md_priority := frontmatter.(fm_priority);
     md_applicability := frontmatter.(fm_applicability);
     md_prerequisites := frontmatter.(fm_prerequisites);
     md_related := frontmatter.(fm_related);
     md_outcomes := frontmatter.(fm_outcomes);
     md_version := Some (Js.orElse frontmatter.(fm_version) "1.0.0");
     md_lastUpdated := frontmatter.(fm_lastUpdated);
     md_author := frontmatter.(fm_author);
     md_references := frontmatter.(fm_references) |}.

(** A discovered file after [matter]: its path below [rulesDir], the
    header's data and the body. *)
Record Document := {
  doc_path : string;
  doc_data : Frontmatter;
  doc_content : string;
}.

(** [loadRule] on a file that exists. *)
Definition loadRule (doc : Document) : Rule :=
  {| metadata := generateMetadata doc.(doc_path) doc.(doc_data) doc.(doc_content);
     content := doc.(doc_content);
     filePath := doc.(doc_path) |}.

(** [loadAllRules]: the rules in discovery order. *)
Definition loadAllRules (ruleFiles : list Document) : list Rule :=
  loadRule <$> ruleFiles.

End RuleLoader.

(** ** src/analyzer/rule-analyzer.ts *)

(** [RuleBundle]; [rules] is a reference to an array in the store. *)
Record RuleBundle := {
  name : string;
  description : string;
  rules : nat;
  scenarios : list string;
}.

Module RuleAnalyzer.

(** *** The store *)

(** The arrays of rules allocated so far, by address, and the analyzer's
    field [this.rules]. *)
Record Store := {
  arrays : list (list Rule);
  this_rules : nat;
}.

(** A computation reads and updates the store, and gets stuck ([None]) on
    an address that names no array. *)
Definition M (A : Type) : Type := Store -> option (A * Store).

Definition ret {A} (a : A) : M A := fun st => Some (a, st).

Definition bind {A B} (m : M A) (k : A -> M B) : M B :=
  fun st =>
    match m st with
    | Some (a, st') => k a st'
    | None => None
    end.

Notation "'let*' x ':=' m 'in' k" := (bind m (fun x => k))
  (at level 10, x name, m at level 100, k at level 200).

Definition getThisRules : M nat := fun st => Some (st.(this_rules), st).

Definition setThisRules (a : nat) : M unit :=
  fun st => Some (tt, {| arrays := st.(arrays); this_rules := a |}).

(** [[...items]] or [new Array]: a fresh array. *)
Definition newArray (items : list Rule) : M nat :=
  fun st =>
    Some (length st.(arrays),
          {| arrays := st.(arrays) ++ [items]; this_rules := st.(this_rules) |}).

Definition readArray (a : nat) : M (list Rule) :=
  fun st =>
    match st.(arrays) !! a with
    | Some items => Some (items, st)
    | None => None
    end.

Definition writeArray (a : nat) (items : list Rule) : M unit :=
  fun st =>
    match st.(arrays) !! a with
    | Some _ =>
        Some (tt, {| arrays := <[a := items]> st.(arrays);
                     this_rules := st.(this_rules) |})
    | None => None
    end.

(** [arr.filter(p)]: a new array. *)
Definition Array_filter (arr : nat) (p : Rule -> bool) : M nat :=
  let* items := readArray arr in
  newArray (List.filter p items).

(** [arr.filter(p)] for a callback that keeps a state of its own between
    the calls (a variable of the enclosing function). *)
Fixpoint filterWith {S} (p : S -> Rule -> bool * S) (s : S) (items : list Rule)
    : list Rule :=
  match items with
  | [] => []
  | rule :: rest =>
      let '(keep, s') := p s rule in
      if keep then rule :: filterWith p s' rest else filterWith p s' rest
  end.

Definition Array_filterWith {S} (arr : nat) (p : S -> Rule -> bool * S) (s : S)
    : M nat :=
  let* items := readArray arr in
  newArray (filterWith p s items).

(** [arr.push(...src)]: in place. *)
Definition Array_push (arr src : nat) : M unit :=
  let* added := readArray src in
  let* items := readArray arr in
  writeArray arr (items ++ added).

(** [Array.prototype.sort] is stable (ECMAScript 2019); for a comparator
    that orders the elements every stable sort returns the same array, and
    this one is the insertion sort. *)
Fixpoint insertSorted (cmp : Rule -> Rule -> Z) (x : Rule) (sorted : list Rule)
    : list Rule :=
  match sorted with
  | [] => [x]
  | y :: rest =>
      if (cmp x y <=? 0)%Z then x :: y :: rest
      else y :: insertSorted cmp x rest
  end.

Definition stableSort (cmp : Rule -> Rule -> Z) (items : list Rule) : list Rule :=
  foldr (insertSorted cmp) [] items.

(** [arr.sort(cmp)]: in place, and returns the same array. *)
Definition Array_sort (arr : nat) (cmp : Rule -> Rule -> Z) : M nat :=
  let* items := readArray arr in
  let* _ := writeArray arr (stableSort cmp items) in
  ret arr.

(** [for (const x of xs) body], threading the locals [b]. *)
Fixpoint forOf {A B} (xs : list A) (body : B -> A -> M B) (b : B) : M B :=
  match xs with
  | [] => ret b
  | x :: rest => let* b' := body b x in forOf rest body b'
  end.

(** *** The class *)

(** [constructor]: [rules = []]. *)
Definition construct : Store := {| arrays := [[]]; this_rules := 0 |}.

(** [initialize]: [this.rules = await this.loader.loadAllRules()]. *)
Definition initialize (ruleFiles : list RuleLoader.Document) : M unit :=
  let* loaded := newArray (RuleLoader.loadAllRules ruleFiles) in
  setThisRules loaded.

Definition getAllRules : M nat := getThisRules.

Definition tagsCallback (tags : list string) (rule : Rule) : bool :=
  Js.some (fun tag => Js.arrayIncludes rule.(metadata).(md_tags) tag) tags.

Definition searchByTags (tags : list string) : M nat :=
  let* this_rules := getThisRules in
  Array_filter this_rules (tagsCallback tags).

Definition languageCallback (language : string) (rule : Rule) : bool :=
  let ruleLangs :=
    match rule.(metadata).(md_language) with
    | LangMany ls => ls
    | LangOne l => [l]
    end in
  Js.arrayIncludes ruleLangs language || Js.arrayIncludes ruleLangs "universal".

Definition searchByLanguage (language : string) : M nat :=
  let* this_rules := getThisRules in
  Array_filter this_rules (languageCallback language).

Definition categoryCallback (category : string) (rule : Rule) : bool :=
  bool_decide (rule.(metadata).(md_category) = category).

Definition searchByCategory (category : string) : M nat :=
  let* this_rules := getThisRules in
  Array_filter this_rules (categoryCallback category).

(** [rule.metadata.applicability?.frameworks?.includes(framework)] *)
Definition frameworkCallback (framework : string) (rule : Rule) : bool :=
  match rule.(metadata).(md_applicability) with
  | Some applicability =>
      match applicability.(ap_frameworks) with
      | Some frameworks => Js.arrayIncludes frameworks framework
      | None => false
      end
  | None => false
  end.

Definition seenCallback (seen : gset string) (rule : Rule) : bool * gset string :=
  if bool_decide (rule.(metadata).(md_id) ∈ seen) then (false, seen)
  else (true, {[ rule.(metadata).(md_id) ]} ∪ seen).

Definition deduplicateRules (rules : nat) : M nat :=
  Array_filterWith rules seenCallback ∅.

Definition priorityOrder (p : Priority) : Z :=
  match p with
  | critical => 0
  | high => 1
  | medium => 2
  | low => 3
  end.

Definition comparePriority (a b : Rule) : Z :=
  let aPriority := priorityOrder (default medium a.(metadata).(md_priority)) in
  let bPriority := priorityOrder (default medium b.(metadata).(md_priority)) in
  (aPriority - bPriority)%Z.

Definition sortByPriority (rules : nat) : M nat :=
  Array_sort rules comparePriority.

(** The strings among [language], [type], [framework] that are set and
    not empty, as the three [if]s push them. *)
Definition pushIf (o : option string) (f : string -> string) (parts : list string)
    : list string :=
  match o with
  | Some s => if Js.truthy s then parts ++ [f s] else parts
  | None => parts
  end.

Definition generateBundleName (context : ScenarioContext) : string :=
  let parts := [] in
  let parts := pushIf context.(ctx_language) (fun s => s) parts in
  let parts := pushIf context.(ctx_type) (fun s => s) parts in
  let parts := pushIf context.(ctx_framework) (fun s => s) parts in
  if (0 <? length parts)%nat then Js.join "-" parts +:+ "-bundle"
  else "custom-bundle".

Definition generateBundleDescription (context : ScenarioContext) : string :=
  let parts := ["Rules for"] in
  let parts := pushIf context.(ctx_language) (fun s => s) parts in
  let parts := pushIf context.(ctx_type) (fun s => s) parts in
  let parts := pushIf context.(ctx_framework) (fun s => "using " +:+ s) parts in
  let parts :=
    match context.(ctx_priorities) with
    | Some priorities =>
        if (0 <? length priorities)%nat
        then parts ++ ["with focus on " +:+ Js.join ", " priorities]
        else parts
    | None => parts
    end in
  Js.join " " parts.

(** [if (o) { body }] on an optional string, threading the local
    [scenarios]. *)
Definition ifSet (o : option string) (scenarios : list string)
    (body : string -> M (list string)) : M (list string) :=
  match o with
  | Some s => if Js.truthy s then body s else ret scenarios
  | None => ret scenarios
  end.

Definition recommendBundle (context : ScenarioContext) : M RuleBundle :=
  let* recommendedRules := newArray [] in
  let scenarios := [] in
  let* generalRules := searchByCategory "general" in
  let* _ := Array_push recommendedRules generalRules in
  let scenarios := scenarios ++ ["general-ai-operations"] in
  let* scenarios := ifSet context.(ctx_type) scenarios (fun type =>
    let* categoryRules := searchByCategory type in
    let* _ := Array_push recommendedRules categoryRules in
    ret (scenarios ++ [type +:+ "-tasks"])) in
  let* scenarios := ifSet context.(ctx_language) scenarios (fun language =>
    let* languageRules := searchByLanguage language in
    let* _ := Array_push recommendedRules languageRules in
    ret (scenarios ++ [language +:+ "-development"])) in
  let* scenarios :=
    match context.(ctx_priorities) with
    | Some priorities =>
        forOf priorities (fun scenarios priority =>
          let* priorityRules := searchByTags [priority] in
          let* _ := Array_push recommendedRules priorityRules in
          ret (scenarios ++ [priority +:+ "-focused"])) scenarios
    | None => ret scenarios
    end in
  let* scenarios := ifSet context.(ctx_framework) scenarios (fun framework =>
    let* this_rules := getThisRules in
    let* frameworkRules := Array_filter this_rules (frameworkCallback framework) in
    let* _ := Array_push recommendedRules frameworkRules in
    ret (scenarios ++ [framework +:+ "-framework"])) in
  let* uniqueRules := deduplicateRules recommendedRules in
  let* sortedRules := sortByPriority uniqueRules in
  ret {| name := generateBundleName context;
         description := generateBundleDescription context;
         rules := sortedRules;
         scenarios := scenarios |}.

(** The six scenarios of [getCommonBundles]. *)
Definition scenario (type : string) (language : option string)
    (priorities : option (list string)) : ScenarioContext :=
  {| ctx_type := Some type; ctx_language := language; ctx_framework := None;
     ctx_priorities := priorities |}.

(** [getCommonBundles]: the object literal, its properties in the order
    they are written and evaluated. *)
Definition getCommonBundles : M (list (string * RuleBundle)) :=
  let* b1 := recommendBundle
          (scenario "coding" (Some "python") (Some ["security"; "performance"])) in
  let* b2 := recommendBundle
          (scenario "coding" (Some "javascript") (Some ["accessibility"; "performance"])) in
  let* b3 := recommendBundle (scenario "coding" None (Some ["security"; "performance"])) in
  let* b4 := recommendBundle (scenario "writing" None (Some ["accessibility"])) in
  let* b5 := recommendBundle (scenario "data" (Some "python") None) in
  let* b6 := recommendBundle (scenario "devops" None (Some ["security"])) in
  ret [ ("python-web-development", b1); ("javascript-frontend", b2);
        ("api-development", b3); ("documentation-writing", b4);
        ("data-analysis", b5); ("devops-cicd", b6) ].

(** [arr.find(p)] *)
Definition Array_find (arr : nat) (p : Rule -> bool) : M (option Rule) :=
  let* items := readArray arr in
  ret (List.find p items).

Definition idCallback (ruleId : string) (r : Rule) : bool :=
  bool_decide (r.(metadata).(md_id) = ruleId).

(** [(r) => ids.includes(r.metadata.id)] *)
Definition listedCallback (ids : list string) (r : Rule) : bool :=
  Js.arrayIncludes ids r.(metadata).(md_id).

Definition getRelatedRules (ruleId : string) : M nat :=
  let* this_rules := getThisRules in
  let* rule := Array_find this_rules (idCallback ruleId) in
  match rule with
  | None => newArray []
  | Some rule =>
      match rule.(metadata).(md_related) with
      | None => newArray []
      | Some related =>
          let* this_rules := getThisRules in
          Array_filter this_rules (listedCallback related)
      end
  end.

Definition getPrerequisites (ruleId : string) : M nat :=
  let* this_rules := getThisRules in
  let* rule := Array_find this_rules (idCallback ruleId) in
  match rule with
  | None => newArray []
  | Some rule =>
      match rule.(metadata).(md_prerequisites) with
      | None => newArray []
      | Some prerequisites =>
          let* this_rules := getThisRules in
          Array_filter this_rules (listedCallback prerequisites)
      end
  end.

End RuleAnalyzer.

(** ** What the methods compute

    The definitions below describe results; the methods above are the
    code. *)

Module Spec.
Import RuleAnalyzer.

(** The index: the array [this.rules] refers to. *)
Definition indexOf (st : Store) : option (list Rule) :=
  st.(arrays) !! st.(this_rules).

Definition alloc (st : Store) (items : list Rule) : Store :=
  {| arrays := st.(arrays) ++ [items]; this_rules := st.(this_rules) |}.

(** Every array of [st] is still there in [st'], with the same elements
    in the same order, and [this.rules] refers to the same one. *)
Definition unchanged (st st' : Store) : Prop :=
  st'.(this_rules) = st.(this_rules)
  /\ forall a items, st.(arrays) !! a = Some items -> st'.(arrays) !! a = Some items.

(** [this.rules.filter(p)] *)
Definition query (p : Rule -> bool) : M nat :=
  bind getThisRules (fun this_rules => Array_filter this_rules p).

(** The store while [recommendBundle] runs: the arrays of the caller
    ([pre]), then the working list, then the results of the queries. *)
Definition working (pre : list (list Rule)) (r0 : nat) (w : list Rule)
    (st : Store) : Prop :=
  st.(this_rules) = r0 /\ exists tmp, st.(arrays) = pre ++ w :: tmp.

Definition ruleId (r : Rule) : string := r.(metadata).(md_id).

(** The rank of a rule: critical 0, high 1, medium 2, low 3, and medium
    for a rule without a priority. *)
Definition priorityRank (r : Rule) : Z :=
  match r.(metadata).(md_priority) with
  | Some critical => 0
  | Some high => 1
  | Some medium => 2
  | Some low => 3
  | None => 2
  end.

Definition rankLe (a b : Rule) : Prop := (priorityRank a <= priorityRank b)%Z.

(** The rules of rank [k], in the order of [l]. *)
Definition ofRank (k : Z) (l : list Rule) : list Rule :=
  List.filter (fun r => bool_decide (priorityRank r = k)) l.

(** The first rule of [w] with the id of [r]. *)
Definition firstWithId (r : Rule) (w : list Rule) : option Rule :=
  List.find (fun x => bool_decide (ruleId x = ruleId r)) w.

(** The rules an optional facet contributes, and its label. *)
Definition facetRules (o : option string) (cb : string -> Rule -> bool)
    (idx : list Rule) : list Rule :=
  match o with
  | Some s => if Js.truthy s then List.filter (cb s) idx else []
  | None => []
  end.

Definition facetLabel (o : option string) (lab : string -> string) : list string :=
  match o with
  | Some s => if Js.truthy s then [lab s] else []
  | None => []
  end.

Definition priorityRules (priorities : option (list string)) (idx : list Rule)
    : list Rule :=
  match priorities with
  | Some priorities =>
      flat_map (fun p => List.filter (tagsCallback [p]) idx) priorities
  | None => []
  end.

Definition priorityLabels (priorities : option (list string)) : list string :=
  match priorities with
  | Some priorities => (fun p => p +:+ "-focused") <$> priorities
  | None => []
  end.

(** The working list when the facet queries are done: general, type,
    language, each priority in the order given, framework. *)
Definition workingList (idx : list Rule) (context : ScenarioContext) : list Rule :=
  List.filter (categoryCallback "general") idx
  ++ facetRules context.(ctx_type) categoryCallback idx
  ++ facetRules context.(ctx_language) languageCallback idx
  ++ priorityRules context.(ctx_priorities) idx
  ++ facetRules context.(ctx_framework) frameworkCallback idx.

Definition scenarioLabels (context : ScenarioContext) : list string :=
  ["general-ai-operations"]
  ++ facetLabel context.(ctx_type) (fun s => s +:+ "-tasks")
  ++ facetLabel context.(ctx_language) (fun s => s +:+ "-development")
  ++ priorityLabels context.(ctx_priorities)
  ++ facetLabel context.(ctx_framework) (fun s => s +:+ "-framework").

Definition dedup (w : list Rule) : list Rule := filterWith seenCallback ∅ w.

Definition bundleRules (idx : list Rule) (context : ScenarioContext) : list Rule :=
  stableSort comparePriority (dedup (workingList idx context)).

(** What [recommendBundle context] returns from [st], whose index is
    [idx]. *)
Definition bundleOk (st : Store) (idx : list Rule) (context : ScenarioContext)
    (r : option (RuleBundle * Store)) : Prop :=
  exists b tmp,
    r = Some (b, {| arrays := st.(arrays) ++ tmp; this_rules := st.(this_rules) |})
    /\ (st.(arrays) ++ tmp) !! b.(rules) = Some (bundleRules idx context)
    /\ b.(name) = generateBundleName context
    /\ b.(description) = generateBundleDescription context
    /\ b.(scenarios) = scenarioLabels context.

(** What a caller sees of a bundle: its fields, with the elements of the
    array behind [rules]. *)
Definition bundleView (st : Store) (b : RuleBundle)
    : string * string * option (list Rule) * list string :=
  (b.(name), b.(description), st.(arrays) !! b.(rules), b.(scenarios)).

(** The first segment of a path: what precedes the first separator. *)
Fixpoint firstSegment (p : string) : string :=
  match p with
  | EmptyString => EmptyString
  | String c rest =>
      if bool_decide (c = RuleLoader.sep) then EmptyString
      else String c (firstSegment rest)
  end.

(** [language] is the rule's language, or one of its languages. *)
Definition hasLanguage (language : string) (rule : Rule) : Prop :=
  match rule.(metadata).(md_language) with
  | LangOne l => l = language
  | LangMany ls => language ∈ ls
  end.

(** The tags of the rule and the tags of the query have a tag in common. *)
Definition sharesTag (tags : list string) (rule : Rule) : Prop :=
  Exists (fun tag => tag ∈ rule.(metadata).(md_tags)) tags.

#[global] Instance sharesTag_dec tags rule : Decision (sharesTag tags rule).
Proof. unfold sharesTag. apply _. Defined.

(** No keyword of [commonTags] occurs in the lowercased file name or body. *)
Definition noKeyword (filename content : string) : Prop :=
  Forall (fun kv : string * list string =>
            Js.includes (Js.toLowerCase filename) kv.1 = false
            /\ Js.includes (Js.toLowerCase content) kv.1 = false)
         RuleLoader.commonTags.

(** [m] returns from [st] and leaves it as it was, but for arrays added. *)
Definition keepsIndex {A} (m : M A) (st : Store) (idx : list Rule) : Prop :=
  exists a st', m st = Some (a, st') /\ unchanged st st' /\ indexOf st' = Some idx.

(** The scenarios behind the keys of [getCommonBundles]. *)
Definition commonScenarios : list (string * ScenarioContext) :=
  [ ("python-web-development",
     {| ctx_type := Some "coding"; ctx_language := Some "python";
        ctx_framework := None;
        ctx_priorities := Some ["security"; "performance"] |});
    ("javascript-frontend",
     {| ctx_type := Some "coding"; ctx_language := Some "javascript";
        ctx_framework := None;
        ctx_priorities := Some ["accessibility"; "performance"] |});
    ("api-development",
     {| ctx_type := Some "coding"; ctx_language := None;
        ctx_framework := None;
        ctx_priorities := Some ["security"; "performance"] |});
    ("documentation-writing",
     {| ctx_type := Some "writing"; ctx_language := None;
        ctx_framework := None; ctx_priorities := Some ["accessibility"] |});
    ("data-analysis",
     {| ctx_type := Some "data"; ctx_language := Some "python";
        ctx_framework := None; ctx_priorities := None |});
    ("devops-cicd",
     {| ctx_type := Some "devops"; ctx_language := None;
        ctx_framework := None; ctx_priorities := Some ["security"] |}) ].

End Spec.

(** ** A small corpus *)

Module Demo.
Import RuleLoader RuleAnalyzer.

Definition nl : string := String "010" EmptyString.

(** A header that declares a category, an empty list of tags and a
    priority. *)
Definition header : Frontmatter :=
  {| fm_id := Some "sec"; fm_title := None; fm_description := None;
     fm_category := Some "security"; fm_subcategory := None;
     fm_language := None; fm_tags := Some []; fm_difficulty := None;
     fm_priority := Some critical; fm_applicability := None;
     fm_prerequisites := None; fm_related := None; fm_outcomes := None;
     fm_version := None; fm_lastUpdated := None; fm_author := None;
     fm_references := None |}.

Definition general : Document :=
  {| doc_path := "general/rules.md"; doc_data := noFrontmatter;
     doc_content := "# General" +:+ nl +:+ "security first" |}.

Definition python : Document :=
  {| doc_path := "coding/python-rules.md"; doc_data := noFrontmatter;
     doc_content := "# Python Development Rules" +:+ nl +:+ "testing and performance" |}.

Definition declared : Document :=
  {| doc_path := "coding/go-rules.md"; doc_data := header;
     doc_content := "# Go" +:+ nl +:+ "performance" |}.

Definition plain : Document :=
  {| doc_path := "notes/rules.md"; doc_data := noFrontmatter;
     doc_content := "plain words" |}.

Definition corpus : list Document := [general; python; declared; plain].

Definition index : list Rule := Eval vm_compute in loadAllRules corpus.

(** The store after [new RuleAnalyzer()] and [initialize()]. *)
Definition store : Store :=
  Eval vm_compute in
    match initialize corpus construct with
    | Some (_, st) => st
    | None => construct
    end.

Definition context : ScenarioContext :=
  {| ctx_type := Some "coding"; ctx_language := Some "python";
     ctx_framework := None;
     ctx_priorities := Some ["security"; "performance"] |}.

End Demo.

(** ** src/cli/index.ts and src/mcp/server.ts: the callers *)

(** The commands of the command line.  Each action makes an analyzer,
    initializes it and prints the rules it selected; the functions below
    are the selection, up to the array that is printed. *)
Module Cli.
Import RuleAnalyzer.

(** [if (o) { rules = body(o) }] on an optional string. *)
Definition ifOption (o : option string) (rules : nat) (body : string -> M nat) : M nat :=
  match o with
  | Some s => if Js.truthy s then body s else ret rules
  | None => ret rules
  end.

(** [if (o) { rules = body(o) }] on an optional array of strings. *)
Definition ifArray (o : option (list string)) (rules : nat)
    (body : list string -> M nat) : M nat :=
  match o with
  | Some xs => body xs
  | None => ret rules
  end.

Record ListOptions := {
  list_category : option string;
  list_language : option string;
  list_tags : option (list string);
}.

(** The [list] command. *)
Definition listCommand (options : ListOptions) : M nat :=
  let* rules := getAllRules in
  let* rules := ifOption options.(list_category) rules searchByCategory in
  let* rules := ifOption options.(list_language) rules searchByLanguage in
  let* rules := ifArray options.(list_tags) rules searchByTags in
  ret rules.




(** An action from the start: [new RuleAnalyzer(dir)], [initialize()], the
    command, and the elements of the array it prints. *)
Definition action (ruleFiles : list RuleLoader.Document) (command : M nat)
    : option (list Rule) :=
  match (let* _ := initialize ruleFiles in
         let* rules := command in
         readArray rules) construct with
  | Some (printed, _) => Some printed
  | None => None
  end.

End Cli.

(** The [search_rules] tool of the server, up to the array whose elements
    are serialized. *)
Module Server.
Import RuleAnalyzer.



End Server.

(** ** More descriptions of results *)

Module Describe.
Import RuleLoader RuleAnalyzer Spec.

(** The tokens [inferLanguage] can return for a language. *)
Definition languageTokens : list string :=
  [ "python"; "javascript"; "typescript"; "go"; "rust"; "java"; "csharp" ].

(** The tags [generateTags] can return. *)
Definition tagVocabulary : list string :=
  [ "performance"; "optimization"; "security"; "testing"; "tdd"; "unit-tests";
    "accessibility"; "a11y"; "best-practices" ].

(** [key] occurs in the lowercased file name or body. *)
Definition mentions (filename content key : string) : bool :=
  Js.includes (Js.toLowerCase filename) key || Js.includes (Js.toLowerCase content) key.

(** The loop of [generateTags] over a table. *)
Definition collect (cond : string * list string -> bool)
    (table : list (string * list string)) (init : list string) : list string :=
  fold_left (fun tags kv => if cond kv then fold_left setAdd kv.2 tags else tags)
            table init.

(** No key of [languageMap] occurs in the lowercased string. *)
Definition noLanguageKey (s : string) : Prop :=
  Forall (fun kv : string * string => Js.includes (Js.toLowerCase s) kv.1 = false)
         languageMap.

(** The character does not occur in the string. *)
Fixpoint without (c : ascii) (s : string) : Prop :=
  match s with
  | EmptyString => True
  | String x rest => x <> c /\ without c rest
  end.

(** No line terminator occurs in the string. *)
Fixpoint oneLine (s : string) : Prop :=
  match s with
  | EmptyString => True
  | String x rest => Js.isLineTerminator x = false /\ oneLine rest
  end.

(** The string is empty or starts with a line terminator. *)
Definition atLineEnd (s : string) : Prop :=
  match s with
  | EmptyString => True
  | String x _ => Js.isLineTerminator x = true
  end.

(** The string is 7-bit text: every character is below 128. *)
Fixpoint sevenBit (s : string) : Prop :=
  match s with
  | EmptyString => True
  | String c rest => (nat_of_ascii c <? 128)%nat = true /\ sevenBit rest
  end.

(** The string starts with a character that is not white space. *)
Definition startsText (s : string) : Prop :=
  match s with
  | EmptyString => False
  | String c _ => Js.isWhiteSpace c = false
  end.

(** After [s] a line starts: [s] ends with a line terminator, or is empty
    and [b] holds. *)
Fixpoint lineStartAfter (b : bool) (s : string) : bool :=
  match s with
  | EmptyString => b
  | String c rest => lineStartAfter (Js.isLineTerminator c) rest
  end.

(** The first rule of the index with the id [ruleId]. *)
Definition ruleWithId (ruleId : string) (idx : list Rule) : option Rule :=
  List.find (idCallback ruleId) idx.

(** The rules of the index whose id is listed in a field ([related] or
    [prerequisites]) of the first rule with the id [ruleId]. *)
Definition linkedRules (field : RuleMetadata -> option (list string))
    (ruleId : string) (idx : list Rule) : list Rule :=
  match ruleWithId ruleId idx with
  | Some rule =>
      match field rule.(metadata) with
      | Some ids => List.filter (listedCallback ids) idx
      | None => []
      end
  | None => []
  end.

(** The ids of the rules of a list. *)
Definition idsOf (l : list Rule) : gset string := list_to_set (ruleId <$> l).

(** A context with a type and nothing else. *)
Definition typeOnly (type : option string) : ScenarioContext :=
  {| ctx_type := type; ctx_language := None; ctx_framework := None;
     ctx_priorities := None |}.

(** The context with another type. *)
Definition withType (type : option string) (context : ScenarioContext) : ScenarioContext :=
  {| ctx_type := type; ctx_language := context.(ctx_language);
     ctx_framework := context.(ctx_framework);
     ctx_priorities := context.(ctx_priorities) |}.

(** The store of an analyzer that was constructed and initialized. *)
Definition loaded (ruleFiles : list Document) : Store :=
  {| arrays := [[]; loadAllRules ruleFiles]; this_rules := 1 |}.

(** The rules a command selects from the index, by the option that decides. *)
Definition byOption (o : option string) (cb : string -> Rule -> bool)
    (otherwise idx : list Rule) : list Rule :=
  match o with
  | Some s => if Js.truthy s then List.filter (cb s) idx else otherwise
  | None => otherwise
  end.

Definition byTags (o : option (list string)) (otherwise idx : list Rule) : list Rule :=
  match o with
  | Some tags => List.filter (tagsCallback tags) idx
  | None => otherwise
  end.

(** While a command runs from [st0]: nothing of [st0] has changed, the index
    is [idx], and the variable [rules] refers to an array with the elements
    [cur]. *)
Definition selected (st0 : Store) (idx cur : list Rule) (rules : nat) (st : Store) : Prop :=
  unchanged st0 st /\ indexOf st = Some idx /\ st.(arrays) !! rules = Some cur.

(** The rules [list] prints: the option given last in the order category,
    language, tags decides alone. *)
Definition listed (options : Cli.ListOptions) (idx : list Rule) : list Rule :=
  byTags options.(Cli.list_tags)
    (byOption options.(Cli.list_language) languageCallback
       (byOption options.(Cli.list_category) categoryCallback idx idx) idx) idx.


End Describe.

(** ** More of the small corpus *)

Module Samples.
Import RuleLoader RuleAnalyzer.

(** A header with an id, related rules and prerequisites. *)
Definition linked : Frontmatter :=
  {| fm_id := Some "style"; fm_title := Some "Style"; fm_description := Some "House STYLE";
     fm_category := None; fm_subcategory := None; fm_language := None;
     fm_tags := Some ["style"]; fm_difficulty := None; fm_priority := Some low;
     fm_applicability := None; fm_prerequisites := Some ["rules"];
     fm_related := Some ["python-rules"; "missing-id"]; fm_outcomes := None;
     fm_version := Some "2.1.0"; fm_lastUpdated := None; fm_author := None;
     fm_references := None |}.

Definition style : Document :=
  {| doc_path := "writing/style-rules.md"; doc_data := linked;
     doc_content := "# Style" +:+ Demo.nl +:+ "Keep it short." |}.

Definition web : Document :=
  {| doc_path := "coding/web-rules.md"; doc_data := noFrontmatter;
     doc_content := "# Web" +:+ Demo.nl +:+ "Use JavaScript modules; mind security." |}.

Definition codingRules : Document :=
  {| doc_path := "coding/rules.md"; doc_data := noFrontmatter;
     doc_content := "# Coding" +:+ Demo.nl +:+ "Write tests." |}.

Definition corpus : list Document :=
  [Demo.general; Demo.python; style; web; codingRules].

Definition index : list Rule := Eval vm_compute in loadAllRules corpus.

Definition store : Store :=
  Eval vm_compute in
    match initialize corpus construct with
    | Some (_, st) => st
    | None => construct
    end.

End Samples.

(** ** The store operations, step by step *)

Module Run.
Import RuleAnalyzer Spec.

Lemma bind_run {A B} (m : M A) (k : A -> M B) st a st' :
  m st = Some (a, st') -> bind m k st = k a st'.
Proof. intros H. unfold bind. by rewrite H. Qed.

Lemma Array_filter_run st arr p items :
  st.(arrays) !! arr = Some items ->
  Array_filter arr p st = Some (length st.(arrays), alloc st (List.filter p items)).
Proof. intros H. unfold Array_filter, bind, readArray. by rewrite H. Qed.

Lemma Array_filterWith_run {S} st arr (p : S -> Rule -> bool * S) s items :
  st.(arrays) !! arr = Some items ->
  Array_filterWith arr p s st
  = Some (length st.(arrays), alloc st (filterWith p s items)).
Proof. intros H. unfold Array_filterWith, bind, readArray. by rewrite H. Qed.

Lemma Array_push_run st arr src items added :
  st.(arrays) !! arr = Some items ->
  st.(arrays) !! src = Some added ->
  Array_push arr src st
  = Some (tt, {| arrays := <[arr := items ++ added]> st.(arrays);
                 this_rules := st.(this_rules) |}).
Proof.
  intros Harr Hsrc. unfold Array_push, bind, readArray, writeArray.
  rewrite Hsrc. simpl. rewrite Harr. simpl. by rewrite Harr.
Qed.

Lemma Array_sort_run st arr cmp items :
  st.(arrays) !! arr = Some items ->
  Array_sort arr cmp st
  = Some (arr, {| arrays := <[arr := stableSort cmp items]> st.(arrays);
                  this_rules := st.(this_rules) |}).
Proof.
  intros Harr. unfold Array_sort, bind, readArray, writeArray, ret.
  rewrite Harr. simpl. by rewrite Harr.
Qed.

Lemma query_run st p idx :
  indexOf st = Some idx ->
  query p st = Some (length st.(arrays), alloc st (List.filter p idx)).
Proof. intros H. unfold query, bind, getThisRules. by apply Array_filter_run. Qed.

Lemma alloc_lookup st items : (alloc st items).(arrays) !! length st.(arrays) = Some items.
Proof. simpl. by apply list_lookup_middle. Qed.

Lemma alloc_unchanged st items : unchanged st (alloc st items).
Proof. split; [done|]. intros a l H. simpl. by apply lookup_app_l_Some. Qed.

Lemma extend_unchanged st tmp :
  unchanged st {| arrays := st.(arrays) ++ tmp; this_rules := st.(this_rules) |}.
Proof. split; [done|]. intros a l H. simpl. by apply lookup_app_l_Some. Qed.

Lemma unchanged_index st st' idx :
  unchanged st st' -> indexOf st = Some idx -> indexOf st' = Some idx.
Proof. intros [Hr Ha] Hi. unfold indexOf in *. rewrite Hr. by apply Ha. Qed.

Section Working.
Variables (pre : list (list Rule)) (r0 : nat) (idx : list Rule).
Hypothesis Hidx : pre !! r0 = Some idx.

Lemma working_index w st : working pre r0 w st -> indexOf st = Some idx.
Proof.
  intros [Hr [tmp Ha]]. unfold indexOf. rewrite Hr, Ha.
  by apply lookup_app_l_Some.
Qed.

(** One facet: query the index, push the result on the working list. *)
Lemma facet_wp {B} (Q : option (B * Store) -> Prop) w st p (k : unit -> M B) :
  working pre r0 w st ->
  (forall st', working pre r0 (w ++ List.filter p idx) st' -> Q (k tt st')) ->
  Q (bind (query p) (fun rs => bind (Array_push (length pre) rs) k) st).
Proof.
  intros Hw HQ. pose proof (working_index _ _ Hw) as Hi.
  destruct Hw as [Hr [tmp Ha]].
  erewrite bind_run by (by apply query_run).
  pose proof (alloc_lookup st (List.filter p idx)) as Hsrc.
  assert (Harr : (alloc st (List.filter p idx)).(arrays) !! length pre = Some w).
  { simpl. rewrite Ha, <- app_assoc. by apply list_lookup_middle. }
  erewrite bind_run by (by apply (Array_push_run _ _ _ _ _ Harr Hsrc)).
  apply HQ. split; [done|]. simpl.
  exists (tmp ++ [List.filter p idx]).
  rewrite Ha, <- app_assoc. simpl.
  rewrite insert_app_r_alt by lia. by rewrite Nat.sub_diag.
Qed.

Lemma skip_wp {B} (Q : option (B * Store) -> Prop) w st sc
    (k : list string -> M B) :
  working pre r0 w st ->
  (forall st', working pre r0 (w ++ []) st' -> Q (k (sc ++ []) st')) ->
  Q (bind (ret sc) k st).
Proof.
  intros Hw HQ. unfold bind, ret. rewrite <- (app_nil_r w) in Hw.
  specialize (HQ st Hw). by rewrite app_nil_r in HQ.
Qed.

Lemma ifSet_wp {B} (Q : option (B * Store) -> Prop)
    o (cb : string -> Rule -> bool) (lab : string -> string) sc w st
    (k : list string -> M B) :
  working pre r0 w st ->
  (forall st', working pre r0 (w ++ facetRules o cb idx) st' ->
               Q (k (sc ++ facetLabel o lab) st')) ->
  Q (bind (ifSet o sc (fun s =>
             bind (query (cb s)) (fun rs =>
             bind (Array_push (length pre) rs) (fun _ =>
             ret (sc ++ [lab s]))))) k st).
Proof.
  intros Hw HQ. unfold ifSet, facetRules, facetLabel in *.
  destruct o as [s|]; [destruct (Js.truthy s)|]; try by apply skip_wp with (w := w).
  unfold bind at 1.
  apply (facet_wp (fun r => Q match r with Some (a, st') => k a st' | None => None end)
           w st (cb s)); [done|].
  intros st' Hw'. simpl. by apply HQ.
Qed.

Lemma forOf_wp {B} (Q : option (B * Store) -> Prop) priorities sc w st
    (k : list string -> M B) :
  working pre r0 w st ->
  (forall st',
     working pre r0
       (w ++ flat_map (fun p => List.filter (tagsCallback [p]) idx) priorities) st' ->
     Q (k (sc ++ ((fun p => p +:+ "-focused") <$> priorities)) st')) ->
  Q (bind (forOf priorities (fun scenarios priority =>
             bind (query (tagsCallback [priority])) (fun rs =>
             bind (Array_push (length pre) rs) (fun _ =>
             ret (scenarios ++ [priority +:+ "-focused"])))) sc) k st).
Proof.
  revert sc w st. induction priorities as [|p ps IH]; intros sc w st Hw HQ.
  - simpl in HQ |- *. by apply skip_wp with (w := w).
  - simpl forOf. unfold bind at 1 2.
    apply (facet_wp
             (fun r => Q match match r with
                               | Some (a, st') => forOf ps _ a st'
                               | None => None
                               end with
                         | Some (a, st') => k a st'
                         | None => None
                         end) w st (tagsCallback [p])); [done|].
    intros st1 Hw1. unfold ret at 1.
    apply (IH (sc ++ [p +:+ "-focused"]) _ st1 Hw1).
    intros st2 Hw2. simpl in HQ. rewrite <- !app_assoc in *. simpl. by apply HQ.
Qed.

Lemma priorities_wp {B} (Q : option (B * Store) -> Prop) priorities sc w st
    (k : list string -> M B) :
  working pre r0 w st ->
  (forall st',
     working pre r0 (w ++ priorityRules priorities idx) st' ->
     Q (k (sc ++ priorityLabels priorities) st')) ->
  Q (bind match priorities with
          | Some priorities =>
              forOf priorities (fun scenarios priority =>
                bind (query (tagsCallback [priority])) (fun rs =>
                bind (Array_push (length pre) rs) (fun _ =>
                ret (scenarios ++ [priority +:+ "-focused"])))) sc
          | None => ret sc
          end k st).
Proof.
  intros Hw HQ. destruct priorities as [ps|]; simpl in HQ.
  - by apply forOf_wp with (w := w).
  - by apply skip_wp with (w := w).
Qed.

(** The end of [recommendBundle]: a new array without the duplicates,
    sorted in place. *)
Lemma finish_run w st :
  working pre r0 w st ->
  exists tmp,
    bind (deduplicateRules (length pre)) sortByPriority st
    = Some (length st.(arrays), {| arrays := pre ++ tmp; this_rules := r0 |})
    /\ (pre ++ tmp) !! length st.(arrays)
       = Some (stableSort comparePriority (dedup w)).
Proof.
  intros [Hr [tmp Ha]].
  assert (Harr : st.(arrays) !! length pre = Some w).
  { rewrite Ha. by apply list_lookup_middle. }
  unfold deduplicateRules, sortByPriority.
  erewrite bind_run by (by apply Array_filterWith_run).
  erewrite Array_sort_run by apply alloc_lookup.
  simpl. rewrite Hr. fold (dedup w).
  exists (w :: tmp ++ [stableSort comparePriority (dedup w)]).
  assert (Hins : <[length st.(arrays) := stableSort comparePriority (dedup w)]>
                   (st.(arrays) ++ [dedup w])
                 = pre ++ w :: tmp ++ [stableSort comparePriority (dedup w)]).
  { rewrite insert_app_r_alt by lia. rewrite Nat.sub_diag. simpl.
    rewrite Ha. by rewrite <- app_assoc. }
  rewrite Hins. split; [done|].
  rewrite <- Hins. apply list_lookup_insert_eq. rewrite length_app. simpl. lia.
Qed.
End Working.

(** [recommendBundle] returns, adds arrays to the store and changes none
    of those it found; the array behind [rules] holds [bundleRules]. *)
Lemma recommendBundle_run st idx context :
  indexOf st = Some idx -> bundleOk st idx context (recommendBundle context st).
Proof.
  intros Hidx. unfold recommendBundle.
  set (pre := st.(arrays)). set (r0 := st.(this_rules)).
  assert (Hw0 : working pre r0 [] (alloc st [])).
  { split; [done|]. by exists []. }
  unfold bind at 1, newArray at 1. fold pre. fold (alloc st []).
  apply (facet_wp pre r0 idx Hidx _ [] _ (categoryCallback "general")); [done|].
  intros st1 Hw1.
  eapply (ifSet_wp pre r0 idx Hidx) with (cb := categoryCallback)
    (lab := fun s => s +:+ "-tasks"); [exact Hw1|].
  intros st2 Hw2.
  eapply (ifSet_wp pre r0 idx Hidx) with (cb := languageCallback)
    (lab := fun s => s +:+ "-development"); [exact Hw2|].
  intros st3 Hw3.
  eapply (priorities_wp pre r0 idx Hidx); [exact Hw3|].
  intros st4 Hw4.
  eapply (ifSet_wp pre r0 idx Hidx) with (cb := frameworkCallback)
    (lab := fun s => s +:+ "-framework"); [exact Hw4|].
  intros st5 Hw5.
  destruct (finish_run pre r0 _ st5 Hw5) as (tmp & Hrun & Hlook).
  unfold bind at 1. unfold bind in Hrun.
  destruct (deduplicateRules (length pre) st5) as [[u st6]|]; [|done].
  unfold bind. rewrite Hrun. unfold ret.
  exists {| name := generateBundleName context;
            description := generateBundleDescription context;
            rules := length (arrays st5);
            scenarios := scenarioLabels context |}, tmp.
  simpl. split; [|split; [|done]].
  - unfold scenarioLabels. by rewrite <- !app_assoc.
  - fold pre. rewrite Hlook. unfold bundleRules, workingList.
    by rewrite <- !app_assoc.
Qed.

End Run.

(** ** Removing duplicates and sorting *)

Module Lists.
Import RuleAnalyzer Spec.

Lemma filterWith_seen_cons seen rule rest :
  filterWith seenCallback seen (rule :: rest)
  = if bool_decide (ruleId rule ∈ seen) then filterWith seenCallback seen rest
    else rule :: filterWith seenCallback ({[ ruleId rule ]} ∪ seen) rest.
Proof.
  simpl. unfold seenCallback. fold (ruleId rule).
  by destruct (bool_decide (ruleId rule ∈ seen)).
Qed.

(** A rule that is kept was not seen before, and is the first of its id. *)
Lemma filterWith_seen_first seen w r :
  r ∈ filterWith seenCallback seen w ->
  (ruleId r ∉ seen) /\ firstWithId r w = Some r.
Proof.
  revert seen. induction w as [|x rest IH]; intros seen Hin.
  - by apply elem_of_nil in Hin.
  - rewrite filterWith_seen_cons in Hin. unfold firstWithId. simpl.
    case_bool_decide as Hseen.
    + destruct (IH _ Hin) as [Hr Hf]. split; [done|].
      rewrite bool_decide_eq_false_2; [done|]. congruence.
    + apply elem_of_cons in Hin as [->|Hin].
      * split; [done|]. by rewrite bool_decide_eq_true_2.
      * destruct (IH _ Hin) as [Hr Hf]. rewrite not_elem_of_union in Hr.
        destruct Hr as [Hne Hr]. apply not_elem_of_singleton in Hne.
        split; [done|]. rewrite bool_decide_eq_false_2; [done|]. congruence.
Qed.

Lemma filterWith_seen_NoDup seen w :
  NoDup (ruleId <$> filterWith seenCallback seen w).
Proof.
  revert seen. induction w as [|x rest IH]; intros seen.
  - constructor.
  - rewrite filterWith_seen_cons. case_bool_decide as Hseen; [apply IH|].
    rewrite fmap_cons. constructor; [|apply IH].
    intros Hin. apply list_elem_of_fmap in Hin as (r & Hid & Hr).
    apply filterWith_seen_first in Hr as [Hr _].
    apply Hr, elem_of_union. left. by apply elem_of_singleton.
Qed.

(** Every id of [w] that was not seen before is kept. *)
Lemma filterWith_seen_complete seen w x :
  x ∈ w -> ruleId x ∉ seen ->
  exists r, r ∈ filterWith seenCallback seen w /\ ruleId r = ruleId x.
Proof.
  revert seen. induction w as [|y rest IH]; intros seen Hin Hx.
  - by apply elem_of_nil in Hin.
  - rewrite filterWith_seen_cons. case_bool_decide as Hseen.
    + apply elem_of_cons in Hin as [->|Hin]; [done|]. by apply IH.
    + destruct (decide (ruleId y = ruleId x)) as [Heq|Hne].
      * exists y. split; [apply elem_of_cons; by left | done].
      * apply elem_of_cons in Hin as [->|Hin]; [done|].
        destruct (IH ({[ruleId y]} ∪ seen) Hin) as (r & Hr & Hid).
        { rewrite not_elem_of_union, not_elem_of_singleton. split; congruence. }
        exists r. split; [apply elem_of_cons; by right | done].
Qed.

(** The order of [w] is kept. *)
Lemma filterWith_seen_sublist seen w : sublist (filterWith seenCallback seen w) w.
Proof.
  revert seen. induction w as [|x rest IH]; intros seen; [constructor|].
  rewrite filterWith_seen_cons. case_bool_decide.
  - by apply sublist_cons.
  - by apply sublist_skip.
Qed.

Lemma comparePriority_rank a b :
  comparePriority a b = (priorityRank a - priorityRank b)%Z.
Proof.
  unfold comparePriority, priorityRank.
  by destruct a.(metadata).(md_priority) as [[]|], b.(metadata).(md_priority) as [[]|].
Qed.

Lemma insertSorted_perm cmp x l : insertSorted cmp x l ≡ₚ x :: l.
Proof.
  induction l as [|y rest IH]; simpl; [done|].
  destruct (cmp x y <=? 0)%Z; [done|].
  rewrite IH. apply Permutation_swap.
Qed.

Lemma stableSort_perm cmp l : stableSort cmp l ≡ₚ l.
Proof.
  induction l as [|x rest IH]; simpl; [done|].
  fold (stableSort cmp rest). by rewrite insertSorted_perm, IH.
Qed.

Lemma insertSorted_sorted x l :
  StronglySorted rankLe l -> StronglySorted rankLe (insertSorted comparePriority x l).
Proof.
  induction 1 as [|y rest Hs IH Hall]; simpl.
  - repeat constructor.
  - rewrite comparePriority_rank. destruct (Z.leb_spec (priorityRank x - priorityRank y) 0) as [Hle|Hgt].
    + constructor; [by constructor|]. constructor; [unfold rankLe; lia|].
      eapply Forall_impl; [exact Hall|]. unfold rankLe. intros z Hz. lia.
    + constructor; [done|].
      rewrite insertSorted_perm. constructor; [unfold rankLe; lia | done].
Qed.

Lemma stableSort_sorted l : StronglySorted rankLe (stableSort comparePriority l).
Proof.
  induction l as [|x rest IH]; simpl; [constructor|].
  by apply insertSorted_sorted.
Qed.

(** Rules of one rank keep their order. *)
Lemma insertSorted_stable k x l :
  ofRank k (insertSorted comparePriority x l) = ofRank k (x :: l).
Proof.
  unfold ofRank. induction l as [|y rest IH]; [done|].
  cbn [insertSorted]. rewrite comparePriority_rank.
  destruct (Z.leb_spec (priorityRank x - priorityRank y) 0) as [Hle|Hgt]; [done|].
  cbn [List.filter] in *. rewrite IH.
  repeat case_bool_decide; try done; lia.
Qed.

Lemma stableSort_stable k l :
  ofRank k (stableSort comparePriority l) = ofRank k l.
Proof.
  induction l as [|x rest IH]; [done|].
  cbn [stableSort foldr]. fold (stableSort comparePriority rest).
  rewrite insertSorted_stable. unfold ofRank in *. cbn [List.filter]. by rewrite IH.
Qed.

Lemma StronglySorted_adjacent l i a b :
  StronglySorted rankLe l -> l !! i = Some a -> l !! S i = Some b -> rankLe a b.
Proof.
  intros Hs. revert i. induction Hs as [|x rest Hs IH Hall]; intros i Ha Hb; [done|].
  destruct i as [|i]; simpl in *.
  - inversion Ha; subst. rewrite Forall_forall in Hall. apply Hall.
    by eapply list_elem_of_lookup_2.
  - by eapply IH.
Qed.

Lemma ofRank_cons k x l :
  ofRank k (x :: l) = if bool_decide (priorityRank x = k) then x :: ofRank k l else ofRank k l.
Proof. reflexivity. Qed.

Lemma elem_of_ofRank k x l : x ∈ ofRank k l -> x ∈ l.
Proof. unfold ofRank. rewrite !list_elem_of_In, filter_In. tauto. Qed.

(** Two arrangements that are sorted by rank and agree rank by rank are
    the same: the result of a stable sort does not depend on the algorithm. *)
Lemma sorted_stable_unique l1 l2 :
  StronglySorted rankLe l1 -> StronglySorted rankLe l2 ->
  (forall k, ofRank k l1 = ofRank k l2) -> l1 = l2.
Proof.
  intros Hs1. revert l2.
  induction Hs1 as [|x r1 Hs1 IH Hall1]; intros l2 Hs2 Heq.
  - destruct l2 as [|y r2]; [done|].
    specialize (Heq (priorityRank y)). rewrite ofRank_cons in Heq.
    by rewrite bool_decide_eq_true_2 in Heq.
  - destruct Hs2 as [|y r2 Hs2 Hall2].
    { specialize (Heq (priorityRank x)). rewrite ofRank_cons in Heq.
      by rewrite bool_decide_eq_true_2 in Heq. }
    rewrite Forall_forall in Hall1, Hall2.
    assert (Hxy : y = x).
    { pose proof (Heq (priorityRank x)) as Hx. pose proof (Heq (priorityRank y)) as Hy.
      rewrite !ofRank_cons in Hx, Hy.
      rewrite (bool_decide_eq_true_2 (priorityRank x = priorityRank x)) in Hx by done.
      rewrite (bool_decide_eq_true_2 (priorityRank y = priorityRank y)) in Hy by done.
      destruct (decide (priorityRank y = priorityRank x)) as [Hr|Hr].
      - rewrite bool_decide_eq_true_2 in Hx by done. congruence.
      - rewrite bool_decide_eq_false_2 in Hx by done.
        rewrite bool_decide_eq_false_2 in Hy by congruence.
        assert (Hx2 : x ∈ r2).
        { apply (elem_of_ofRank (priorityRank x)). rewrite <- Hx. by left. }
        assert (Hy1 : y ∈ r1).
        { apply (elem_of_ofRank (priorityRank y)). rewrite Hy. by left. }
        apply Hall2 in Hx2. apply Hall1 in Hy1. unfold rankLe in *. lia. }
    subst y. f_equal. apply IH; [done|]. intros k.
    specialize (Heq k). rewrite !ofRank_cons in Heq.
    destruct (bool_decide (priorityRank x = k)); congruence.
Qed.

Lemma stableSort_unique l l' :
  StronglySorted rankLe l' -> (forall k, ofRank k l' = ofRank k l) ->
  l' = stableSort comparePriority l.
Proof.
  intros Hs Heq. apply sorted_stable_unique; [done | apply stableSort_sorted |].
  intros k. by rewrite stableSort_stable.
Qed.

End Lists.

(** ** The metadata of a document *)

Module Metadata.
Import RuleLoader Spec.

Lemma hd_split p : List.hd EmptyString (Js.split sep p) = firstSegment p.
Proof.
  induction p as [|c rest IH]; [done|]. simpl.
  case_bool_decide; [done|].
  destruct (Js.split sep rest) as [|w ws]; simpl in *; by rewrite <- IH.
Qed.

Lemma arrayIncludes_elem_of arr x : Js.arrayIncludes arr x = bool_decide (x ∈ arr).
Proof.
  unfold Js.arrayIncludes. induction arr as [|y rest IH]; cbn [existsb].
  - symmetry. apply bool_decide_eq_false_2. by intros ?%elem_of_nil.
  - rewrite IH. destruct (decide (y = x)) as [->|Hne].
    + rewrite (bool_decide_eq_true_2 (x = x)) by done.
      symmetry. apply bool_decide_eq_true_2. by left.
    + rewrite (bool_decide_eq_false_2 (y = x)) by done. cbn [orb].
      apply bool_decide_ext. rewrite elem_of_cons.
      split; [by right | intros [?|?]; [congruence | done]].
Qed.

(** C1, as the code has it: the category of a document is read off its
    path and nothing else.  It is the first segment of the path when that
    segment is one of the nine categories, and "general" otherwise; the
    header plays no part. *)
Theorem category_from_path path frontmatter content :
  md_category (generateMetadata path frontmatter content)
  = if decide (firstSegment path ∈
                 [ "general"; "coding"; "writing"; "research"; "communication";
                   "data"; "project-management"; "security"; "devops" ])
    then firstSegment path else "general".
Proof.
  unfold generateMetadata. cbn [md_category]. unfold inferCategory.
  rewrite hd_split, arrayIncludes_elem_of. unfold validCategories.
  case_bool_decide; case_decide; done.
Qed.

(** C1 as stated fails: a header that declares the category "security" in
    a file below [coding/] yields the category "coding". *)
Lemma header_category_ignored :
  fm_category (doc_data Demo.declared) = Some "security"
  /\ md_category (metadata (loadRule Demo.declared)) <> "security".
Proof. split; [reflexivity|]. vm_compute. discriminate. Qed.

Lemma generateTags_nonempty filename content : generateTags filename content <> [].
Proof.
  unfold generateTags.
  destruct (fold_left _ commonTags []) as [|t ts]; simpl; [|done].
  by vm_compute.
Qed.

Lemma generateTags_fallback filename content :
  noKeyword filename content -> generateTags filename content = ["best-practices"].
Proof.
  unfold noKeyword, generateTags, commonTags. intros H.
  rewrite !Forall_cons in H. cbn [fst] in H.
  destruct H as ([F1 C1] & [F2 C2] & [F3 C3] & [F4 C4] & [F5 C5] & _).
  cbv beta zeta iota delta [fold_left fst snd].
  by rewrite F1, C1, F2, C2, F3, C3, F4, C4, F5, C5.
Qed.

(** C2, as the code has it: tags that the header declares are used as
    they are; for a document whose header declares no tags the tags are not
    empty, and they are exactly "best-practices" when no keyword of the table
    occurs in the lowercased file name or body.  So the tags of a rule are
    empty exactly when its header declares the empty list. *)
Theorem extracted_tags path frontmatter content :
  (forall declared,
     fm_tags frontmatter = Some declared ->
     md_tags (generateMetadata path frontmatter content) = declared)
  /\ (fm_tags frontmatter = None ->
      md_tags (generateMetadata path frontmatter content) <> []
      /\ (noKeyword (basename path) content ->
          md_tags (generateMetadata path frontmatter content) = ["best-practices"]))
  /\ (md_tags (generateMetadata path frontmatter content) = []
      <-> fm_tags frontmatter = Some []).
Proof.
  unfold generateMetadata. cbn [md_tags].
  destruct (fm_tags frontmatter) as [declared|].
  - split; [by intros ? [= ->]|]. split; [done|]. split; [by intros -> | by intros [= ->]].
  - split; [done|]. split.
    + intros _. split; [apply generateTags_nonempty | apply generateTags_fallback].
    + split; [|done]. intros Hnil. by apply generateTags_nonempty in Hnil.
Qed.

Lemma extracted_tags_witness :
  md_tags (metadata (loadRule Demo.declared)) = []
  /\ md_tags (metadata (loadRule Demo.plain)) <> []
  /\ md_tags (metadata (loadRule Demo.plain)) = ["best-practices"].
Proof.
  destruct (extracted_tags "coding/go-rules.md" Demo.header
              ("# Go" +:+ Demo.nl +:+ "performance")) as (Hdecl & _ & _).
  destruct (extracted_tags "notes/rules.md" noFrontmatter "plain words")
    as (_ & Hgen & _).
  destruct (Hgen eq_refl) as [Hne Hfb].
  split; [exact (Hdecl [] eq_refl)|]. split; [exact Hne|].
  apply Hfb. unfold noKeyword. vm_compute. repeat constructor.
Defined.

(** C2 as stated fails: declared tags are used as they are, and a header
    that declares the empty list gives a rule without tags. *)
Lemma declared_empty_tags :
  fm_tags (doc_data Demo.declared) = Some []
  /\ md_tags (metadata (loadRule Demo.declared)) = [].
Proof. split; reflexivity. Qed.

(** C5, as the code has it: without a priority in the header the metadata
    has no priority either; the default is applied where priorities are
    compared, and the rule is ranked there as a medium one. *)
Theorem priority_unset_until_sorted doc other :
  fm_priority (doc_data doc) = None ->
  md_priority (metadata (loadRule doc)) = None
  /\ RuleAnalyzer.comparePriority (loadRule doc) other
     = (RuleAnalyzer.priorityOrder medium - priorityRank other)%Z
  /\ RuleAnalyzer.comparePriority other (loadRule doc)
     = (priorityRank other - RuleAnalyzer.priorityOrder medium)%Z.
Proof.
  intros Hnone.
  assert (Hp : md_priority (metadata (loadRule doc)) = None) by exact Hnone.
  split; [exact Hp|].
  unfold RuleAnalyzer.comparePriority, priorityRank. rewrite Hp.
  by destruct other.(metadata).(md_priority) as [[]|].
Qed.

Lemma priority_unset_until_sorted_witness :
  md_priority (metadata (loadRule Demo.plain)) = None
  /\ RuleAnalyzer.comparePriority (loadRule Demo.plain) (loadRule Demo.declared) = 2%Z
  /\ RuleAnalyzer.comparePriority (loadRule Demo.declared) (loadRule Demo.plain) = (-2)%Z.
Proof.
  exact (priority_unset_until_sorted Demo.plain (loadRule Demo.declared) eq_refl).
Defined.

(** C5 as stated fails: the metadata of a document without a priority in
    its header does not show "medium". *)
Lemma priority_not_defaulted :
  fm_priority (doc_data Demo.plain) = None
  /\ md_priority (metadata (loadRule Demo.plain)) <> Some medium.
Proof. split; [reflexivity|]. vm_compute. discriminate. Qed.

(** C7, as the code has it: description, subcategory, difficulty,
    priority, applicability, prerequisites, related, outcomes, lastUpdated,
    author and references are the header's when it declares them and unset
    when it does not; version is the header's when it declares one that is
    not empty, and "1.0.0" otherwise. *)
Theorem optional_fields path frontmatter content :
  let m := generateMetadata path frontmatter content in
  md_description m = fm_description frontmatter
  /\ md_subcategory m = fm_subcategory frontmatter
  /\ md_difficulty m = fm_difficulty frontmatter
  /\ md_priority m = fm_priority frontmatter
  /\ md_applicability m = fm_applicability frontmatter
  /\ md_prerequisites m = fm_prerequisites frontmatter
  /\ md_related m = fm_related frontmatter
  /\ md_outcomes m = fm_outcomes frontmatter
  /\ md_lastUpdated m = fm_lastUpdated frontmatter
  /\ md_author m = fm_author frontmatter
  /\ md_references m = fm_references frontmatter
  /\ md_version m
     = match fm_version frontmatter with
       | Some v => if decide (v = "") then Some "1.0.0" else Some v
       | None => Some "1.0.0"
       end.
Proof.
  repeat split. cbn. unfold Js.orElse.
  destruct (fm_version frontmatter) as [[|c v]|]; by try destruct (decide _).
Qed.

(** C7 as stated fails: a header without a version gives the version
    "1.0.0", not an unset field. *)
Lemma version_defaulted :
  fm_version (doc_data Demo.plain) = None
  /\ md_version (metadata (loadRule Demo.plain)) = Some "1.0.0".
Proof. split; reflexivity. Qed.

End Metadata.

(** ** The queries and the recommendation *)

Module Analyzer.
Import RuleAnalyzer Spec Run Lists.

(** A callback that decides [P] filters like [P]. *)
Lemma filter_bool_Prop (p : Rule -> bool) (P : Rule -> Prop)
    `{!forall r, Decision (P r)} l :
  (forall r, p r = true <-> P r) -> List.filter p l = filter P l.
Proof.
  intros Hp. induction l as [|x rest IH]; [done|].
  cbn [List.filter]. rewrite filter_cons, IH.
  destruct (p x) eqn:Hx; case_decide; try done.
  - by apply Hp in Hx.
  - apply Hp in H0. congruence.
Qed.

Lemma elem_of_List_filter (p : Rule -> bool) l r :
  r ∈ List.filter p l <-> r ∈ l /\ p r = true.
Proof. rewrite !list_elem_of_In. apply filter_In. Qed.

Lemma arrayIncludes_true arr x : Js.arrayIncludes arr x = true <-> x ∈ arr.
Proof. rewrite Metadata.arrayIncludes_elem_of. apply bool_decide_eq_true. Qed.

Lemma tagsCallback_sharesTag tags rule :
  tagsCallback tags rule = true <-> sharesTag tags rule.
Proof.
  unfold tagsCallback, Js.some, sharesTag.
  rewrite existsb_exists, Exists_exists. split.
  - intros (t & Hin & Hinc). exists t. split; [by apply list_elem_of_In|].
    by apply arrayIncludes_true.
  - intros (t & Hin & Hinc). exists t. split; [by apply list_elem_of_In|].
    by apply arrayIncludes_true.
Qed.

Lemma languageCallback_hasLanguage language rule :
  languageCallback language rule = true
  <-> hasLanguage language rule \/ hasLanguage "universal" rule.
Proof.
  unfold languageCallback, hasLanguage.
  rewrite orb_true_iff, !arrayIncludes_true.
  destruct rule.(metadata).(md_language) as [l|ls]; [|done].
  rewrite !list_elem_of_singleton. split; intros [?|?]; auto.
Qed.

(** A query returns a new array and changes nothing else. *)
Lemma query_keeps p st idx :
  indexOf st = Some idx ->
  exists a st',
    query p st = Some (a, st') /\ unchanged st st' /\ indexOf st' = Some idx
    /\ st'.(arrays) !! a = Some (List.filter p idx).
Proof.
  intros Hidx. exists (length st.(arrays)), (alloc st (List.filter p idx)).
  split; [by apply query_run|]. split; [apply alloc_unchanged|].
  split; [|apply alloc_lookup].
  eapply unchanged_index; [apply alloc_unchanged | done].
Qed.

(** [recommendBundle], as its callers see it. *)
Lemma recommendBundle_keeps st idx context :
  indexOf st = Some idx ->
  exists b st',
    recommendBundle context st = Some (b, st')
    /\ unchanged st st' /\ indexOf st' = Some idx
    /\ bundleView st' b
       = (generateBundleName context, generateBundleDescription context,
          Some (bundleRules idx context), scenarioLabels context).
Proof.
  intros Hidx.
  destruct (recommendBundle_run st idx context Hidx)
    as (b & tmp & Hrun & Hlook & Hname & Hdesc & Hscen).
  exists b, {| arrays := st.(arrays) ++ tmp; this_rules := st.(this_rules) |}.
  split; [done|]. split; [apply extend_unchanged|]. split.
  - eapply unchanged_index; [apply extend_unchanged | done].
  - unfold bundleView. simpl. by rewrite Hlook, Hname, Hdesc, Hscen.
Qed.

(** C3: the rules of a recommended bundle have pairwise different ids;
    each of them is the first rule with its id in the working list
    (general, type, language, the priorities in the order given,
    framework), and every id of the working list is there. *)
Theorem bundle_ids_unique st idx context :
  indexOf st = Some idx ->
  exists b st' l,
    recommendBundle context st = Some (b, st')
    /\ st'.(arrays) !! b.(rules) = Some l
    /\ NoDup (ruleId <$> l)
    /\ (forall r, r ∈ l -> firstWithId r (workingList idx context) = Some r)
    /\ (forall x, x ∈ workingList idx context -> exists r, r ∈ l /\ ruleId r = ruleId x).
Proof.
  intros Hidx.
  destruct (recommendBundle_keeps st idx context Hidx)
    as (b & st' & Hrun & _ & _ & Hview).
  injection Hview as _ _ Hlook _.
  exists b, st', (bundleRules idx context). split; [done|]. split; [done|].
  unfold bundleRules.
  pose proof (stableSort_perm comparePriority (dedup (workingList idx context))) as Hperm.
  split; [|split].
  - rewrite Hperm. apply filterWith_seen_NoDup.
  - intros r Hr. rewrite Hperm in Hr. by apply filterWith_seen_first in Hr as [_ Hr].
  - intros x Hx.
    destruct (filterWith_seen_complete ∅ _ x Hx) as (r & Hr & Hid).
    { apply not_elem_of_empty. }
    exists r. split; [|done]. by rewrite Hperm.
Qed.

Lemma bundle_ids_unique_witness :
  exists b st' l,
    recommendBundle Demo.context Demo.store = Some (b, st')
    /\ st'.(arrays) !! b.(rules) = Some l
    /\ NoDup (ruleId <$> l)
    /\ (forall r, r ∈ l -> firstWithId r (workingList Demo.index Demo.context) = Some r)
    /\ (forall x, x ∈ workingList Demo.index Demo.context ->
                  exists r, r ∈ l /\ ruleId r = ruleId x).
Proof. exact (bundle_ids_unique Demo.store Demo.index Demo.context eq_refl). Defined.

(** C4: the rules of a recommended bundle are sorted by rank (critical 0,
    high 1, medium 2, low 3, no priority as medium): of two neighbours the
    first is ranked at most as the second; and the rules of one rank are in
    the order in which they were first appended. *)
Theorem bundle_sorted_stable st idx context :
  indexOf st = Some idx ->
  exists b st' l,
    recommendBundle context st = Some (b, st')
    /\ st'.(arrays) !! b.(rules) = Some l
    /\ (forall i a c, l !! i = Some a -> l !! S i = Some c ->
                      (priorityRank a <= priorityRank c)%Z)
    /\ (forall k, ofRank k l = ofRank k (dedup (workingList idx context))).
Proof.
  intros Hidx.
  destruct (recommendBundle_keeps st idx context Hidx)
    as (b & st' & Hrun & _ & _ & Hview).
  injection Hview as _ _ Hlook _.
  exists b, st', (bundleRules idx context). split; [done|]. split; [done|].
  unfold bundleRules. split.
  - intros i a c. apply StronglySorted_adjacent, stableSort_sorted.
  - intros k. apply stableSort_stable.
Qed.

Lemma bundle_sorted_stable_witness :
  exists b st' l,
    recommendBundle Demo.context Demo.store = Some (b, st')
    /\ st'.(arrays) !! b.(rules) = Some l
    /\ (forall i a c, l !! i = Some a -> l !! S i = Some c ->
                      (priorityRank a <= priorityRank c)%Z)
    /\ (forall k, ofRank k l = ofRank k (dedup (workingList Demo.index Demo.context))).
Proof. exact (bundle_sorted_stable Demo.store Demo.index Demo.context eq_refl). Defined.

(** C6: [searchByLanguage(L)] returns a rule of the index exactly when [L]
    is its language or one of its languages, or "universal" is; so a rule
    whose language is "universal" is returned for every [L]. *)
Theorem searchByLanguage_universal st idx language :
  indexOf st = Some idx ->
  exists a st' found,
    searchByLanguage language st = Some (a, st')
    /\ st'.(arrays) !! a = Some found
    /\ (forall r, r ∈ idx ->
          (r ∈ found <-> hasLanguage language r \/ hasLanguage "universal" r))
    /\ (forall r, r ∈ idx -> r.(metadata).(md_language) = LangOne "universal" ->
          r ∈ found).
Proof.
  intros Hidx.
  destruct (query_keeps (languageCallback language) st idx Hidx)
    as (a & st' & Hrun & _ & _ & Hlook).
  exists a, st', (List.filter (languageCallback language) idx).
  split; [done|]. split; [done|]. split.
  - intros r Hr. rewrite elem_of_List_filter, languageCallback_hasLanguage.
    tauto.
  - intros r Hr Hlang. rewrite elem_of_List_filter, languageCallback_hasLanguage.
    split; [done|]. right. unfold hasLanguage. by rewrite Hlang.
Qed.

Lemma searchByLanguage_universal_witness :
  exists a st' found,
    searchByLanguage "rust" Demo.store = Some (a, st')
    /\ st'.(arrays) !! a = Some found
    /\ (forall r, r ∈ Demo.index ->
          (r ∈ found <-> hasLanguage "rust" r \/ hasLanguage "universal" r))
    /\ (forall r, r ∈ Demo.index -> r.(metadata).(md_language) = LangOne "universal" ->
          r ∈ found).
Proof. exact (searchByLanguage_universal Demo.store Demo.index "rust" eq_refl). Defined.

Lemma query_keepsIndex p st idx :
  indexOf st = Some idx -> keepsIndex (query p) st idx.
Proof.
  intros Hidx. destruct (query_keeps p st idx Hidx) as (a & st' & ? & ? & ? & _).
  by exists a, st'.
Qed.

(** C8: [recommendBundle], [searchByCategory], [searchByLanguage],
    [searchByTags] and [getAllRules] return and leave the index as it was:
    [this.rules] refers to the same array, and that array (like every
    array there was before the call) has the same elements in the same
    order.  The sort of [recommendBundle] is in place, on an array of its
    own. *)
Theorem queries_keep_index st idx context category language tags :
  indexOf st = Some idx ->
  keepsIndex (recommendBundle context) st idx
  /\ keepsIndex (searchByCategory category) st idx
  /\ keepsIndex (searchByLanguage language) st idx
  /\ keepsIndex (searchByTags tags) st idx
  /\ keepsIndex getAllRules st idx.
Proof.
  intros Hidx. split; [|repeat split].
  - destruct (recommendBundle_keeps st idx context Hidx) as (b & st' & ? & ? & ? & _).
    by exists b, st'.
  - by apply (query_keepsIndex (categoryCallback category)).
  - by apply (query_keepsIndex (languageCallback language)).
  - by apply (query_keepsIndex (tagsCallback tags)).
  - exists st.(this_rules), st. split; [done|]. split; [|done]. by split.
Qed.

Lemma queries_keep_index_witness :
  keepsIndex (recommendBundle Demo.context) Demo.store Demo.index
  /\ keepsIndex (searchByCategory "coding") Demo.store Demo.index
  /\ keepsIndex (searchByLanguage "python") Demo.store Demo.index
  /\ keepsIndex (searchByTags ["security"]) Demo.store Demo.index
  /\ keepsIndex getAllRules Demo.store Demo.index.
Proof.
  exact (queries_keep_index Demo.store Demo.index Demo.context
           "coding" "python" ["security"] eq_refl).
Defined.

Lemma filter_none tags (l : list Rule) :
  (forall r, r ∈ l -> ~ sharesTag tags r) -> filter (sharesTag tags) l = [].
Proof.
  intros Hno. induction l as [|x rest IH]; [done|].
  rewrite filter_cons. rewrite decide_False by (apply Hno; by left).
  apply IH. intros r Hr. apply Hno. by right.
Qed.

(** C9: [searchByTags(T)] returns, in the order of the index, exactly the
    rules that have a tag in common with [T]; when no rule has one, and so
    when [T] is empty, it returns the empty array. *)
Theorem searchByTags_any st idx tags :
  indexOf st = Some idx ->
  exists a st' found,
    searchByTags tags st = Some (a, st')
    /\ st'.(arrays) !! a = Some found
    /\ found = filter (sharesTag tags) idx
    /\ ((forall r, r ∈ idx -> ~ sharesTag tags r) -> found = [])
    /\ (tags = [] -> found = []).
Proof.
  intros Hidx.
  destruct (query_keeps (tagsCallback tags) st idx Hidx)
    as (a & st' & Hrun & _ & _ & Hlook).
  rewrite (filter_bool_Prop _ (sharesTag tags)) in Hlook
    by apply tagsCallback_sharesTag.
  exists a, st', (filter (sharesTag tags) idx).
  split; [done|]. split; [done|]. split; [done|].
  pose proof (filter_none tags idx) as Hnone.
  split; [exact Hnone|].
  intros ->. apply Hnone. intros r _ Hr. by apply Exists_nil in Hr.
Qed.

Lemma searchByTags_any_witness :
  exists a st' found,
    searchByTags ["nonexistent-tag"] Demo.store = Some (a, st')
    /\ st'.(arrays) !! a = Some found
    /\ found = filter (sharesTag ["nonexistent-tag"]) Demo.index
    /\ ((forall r, r ∈ Demo.index -> ~ sharesTag ["nonexistent-tag"] r) -> found = [])
    /\ (["nonexistent-tag"] = [] -> found = []).
Proof. exact (searchByTags_any Demo.store Demo.index ["nonexistent-tag"] eq_refl). Defined.

Lemma unchanged_trans st1 st2 st3 :
  unchanged st1 st2 -> unchanged st2 st3 -> unchanged st1 st3.
Proof.
  intros [Hr1 Ha1] [Hr2 Ha2]. split; [congruence|].
  intros a l H. by apply Ha2, Ha1.
Qed.

Lemma bundleView_unchanged st st' b name description l scenarios :
  unchanged st st' ->
  bundleView st b = (name, description, Some l, scenarios) ->
  bundleView st' b = (name, description, Some l, scenarios).
Proof.
  intros [_ Ha] Hview. injection Hview as <- <- Hlook <-.
  unfold bundleView. by rewrite (Ha _ _ Hlook).
Qed.

Lemma recommendBundle_wp {B} (Q : option (B * Store) -> Prop) context
    (k : RuleBundle -> M B) st idx :
  indexOf st = Some idx ->
  (forall b st',
     unchanged st st' -> indexOf st' = Some idx ->
     bundleView st' b
     = (generateBundleName context, generateBundleDescription context,
        Some (bundleRules idx context), scenarioLabels context) ->
     Q (k b st')) ->
  Q (bind (recommendBundle context) k st).
Proof.
  intros Hidx HQ.
  destruct (recommendBundle_keeps st idx context Hidx)
    as (b & st' & Hrun & Hu & Hidx' & Hv).
  erewrite bind_run by exact Hrun. by apply HQ.
Qed.

(** The bundle of the goal has the view of a fresh call. *)
Ltac same_view idx Hidx :=
  match goal with
  | |- context [recommendBundle ?ctx ?st] =>
      let b0 := fresh "b0" in
      let st0 := fresh "st0" in
      let Hrun0 := fresh "Hrun0" in
      let Hv0 := fresh "Hv0" in
      let Hu0 := fresh "Hu0" in
      let Hi0 := fresh "Hi0" in
      pose proof (recommendBundle_keeps st idx ctx Hidx) as (b0 & st0 & Hrun0 & Hu0 & Hi0 & Hv0);
      exists b0, st0; split; [exact Hrun0|]; rewrite Hv0
  end.

(** C10: [getCommonBundles] returns six entries, under the keys
    python-web-development, javascript-frontend, api-development,
    documentation-writing, data-analysis and devops-cicd in this order;
    the bundle under a key is what [recommendBundle] returns for the
    scenario of that key from the store of the call. *)
Theorem getCommonBundles_six st idx :
  indexOf st = Some idx ->
  exists bundles st',
    getCommonBundles st = Some (bundles, st')
    /\ bundles.*1
       = [ "python-web-development"; "javascript-frontend"; "api-development";
           "documentation-writing"; "data-analysis"; "devops-cicd" ]
    /\ Forall2
         (fun (kb : string * RuleBundle) (ks : string * ScenarioContext) =>
            kb.1 = ks.1
            /\ exists b0 st0,
                 recommendBundle ks.2 st = Some (b0, st0)
                 /\ bundleView st' kb.2 = bundleView st0 b0)
         bundles commonScenarios.
Proof.
  intros Hidx. unfold getCommonBundles, scenario.
  eapply recommendBundle_wp; [exact Hidx|]. intros b1 st1 Hu1 Hidx1 Hv1.
  eapply recommendBundle_wp; [exact Hidx1|]. intros b2 st2 Hu2 Hidx2 Hv2.
  eapply recommendBundle_wp; [exact Hidx2|]. intros b3 st3 Hu3 Hidx3 Hv3.
  eapply recommendBundle_wp; [exact Hidx3|]. intros b4 st4 Hu4 Hidx4 Hv4.
  eapply recommendBundle_wp; [exact Hidx4|]. intros b5 st5 Hu5 Hidx5 Hv5.
  eapply recommendBundle_wp; [exact Hidx5|]. intros b6 st6 Hu6 Hidx6 Hv6.
  unfold ret.
  eexists _, st6. split; [reflexivity|]. split; [reflexivity|].
  pose proof (unchanged_trans _ _ _ Hu5 Hu6) as Hu56.
  pose proof (unchanged_trans _ _ _ Hu4 Hu56) as Hu46.
  pose proof (unchanged_trans _ _ _ Hu3 Hu46) as Hu36.
  pose proof (unchanged_trans _ _ _ Hu2 Hu36) as Hu26.
  unfold commonScenarios.
  repeat apply List.Forall2_cons; [..|apply List.Forall2_nil];
    cbn beta iota delta [fst snd]; (split; [reflexivity|]).
  - same_view idx Hidx. exact (bundleView_unchanged _ _ _ _ _ _ _ Hu26 Hv1).
  - same_view idx Hidx. exact (bundleView_unchanged _ _ _ _ _ _ _ Hu36 Hv2).
  - same_view idx Hidx. exact (bundleView_unchanged _ _ _ _ _ _ _ Hu46 Hv3).
  - same_view idx Hidx. exact (bundleView_unchanged _ _ _ _ _ _ _ Hu56 Hv4).
  - same_view idx Hidx. exact (bundleView_unchanged _ _ _ _ _ _ _ Hu6 Hv5).
  - same_view idx Hidx. exact Hv6.
Qed.

Lemma getCommonBundles_six_witness :
  exists bundles st',
    getCommonBundles Demo.store = Some (bundles, st')
    /\ bundles.*1
       = [ "python-web-development"; "javascript-frontend"; "api-development";
           "documentation-writing"; "data-analysis"; "devops-cicd" ]
    /\ Forall2
         (fun (kb : string * RuleBundle) (ks : string * ScenarioContext) =>
            kb.1 = ks.1
            /\ exists b0 st0,
                 recommendBundle ks.2 Demo.store = Some (b0, st0)
                 /\ bundleView st' kb.2 = bundleView st0 b0)
         bundles commonScenarios.
Proof. exact (getCommonBundles_six Demo.store Demo.index eq_refl). Defined.

End Analyzer.

(** ** The code on the small corpus *)

Module Examples.
Import RuleLoader RuleAnalyzer Spec.

(** A document without a header below [coding/]: heading, file name and
    body give title, id, language and tags. *)
Example python_document :
  let m := metadata (loadRule Demo.python) in
  m.(md_category) = "coding" /\ m.(md_language) = LangOne "python"
  /\ m.(md_title) = "Python Development Rules" /\ m.(md_id) = "python-rules"
  /\ m.(md_tags) = ["performance"; "optimization"; "testing"; "tdd"; "unit-tests"]
  /\ m.(md_priority) = None /\ m.(md_version) = Some "1.0.0".
Proof. vm_compute. repeat split. Qed.

(** [\s+] runs over line ends: the heading of an empty [#] line is the
    next line. *)
Example heading_after_line_end :
  extractTitle ("# " +:+ Demo.nl +:+ "# t") = Some "# t"
  /\ extractTitle ("#a" +:+ Demo.nl +:+ "#  Title  " +:+ Demo.nl +:+ "x") = Some "Title"
  /\ extractTitle "#  " = Some ""
  /\ extractTitle "no heading" = None.
Proof. vm_compute. repeat split. Qed.

(** The bundle for python coding with a focus on security and performance:
    the critical rule first, one rule per id. *)
Example python_bundle :
  (match recommendBundle Demo.context Demo.store with
   | Some (b, st') =>
       Some (b.(name), b.(scenarios), fmap (M := list) ruleId <$> st'.(arrays) !! b.(rules))
   | None => None
   end)
  = Some ("python-coding-bundle",
          ["general-ai-operations"; "coding-tasks"; "python-development";
           "security-focused"; "performance-focused"],
          Some ["sec"; "rules"; "python-rules"]).
Proof. vm_compute. reflexivity. Qed.

Example python_working_list :
  ruleId <$> workingList Demo.index Demo.context
  = ["rules"; "rules"; "python-rules"; "sec"; "rules"; "python-rules";
     "rules"; "rules"; "python-rules"].
Proof. vm_compute. reflexivity. Qed.

End Examples.

(** ** More on the metadata: categories, tags, languages *)

Module Loading.
Import RuleLoader RuleAnalyzer Spec Describe Run.

Lemma initialize_loaded ruleFiles :
  initialize ruleFiles construct = Some (tt, loaded ruleFiles).
Proof. reflexivity. Qed.

Lemma loaded_index ruleFiles : indexOf (loaded ruleFiles) = Some (loadAllRules ruleFiles).
Proof. reflexivity. Qed.

Lemma elem_of_loadAllRules doc ruleFiles :
  doc ∈ ruleFiles -> loadRule doc ∈ loadAllRules ruleFiles.
Proof. intros Hin. unfold loadAllRules. by apply list_elem_of_fmap_2. Qed.

Lemma inferCategory_valid dirName : inferCategory dirName ∈ validCategories.
Proof.
  unfold inferCategory. rewrite Metadata.arrayIncludes_elem_of.
  case_bool_decide; [done|]. by left.
Qed.

Lemma filter_nothing (p : Rule -> bool) l :
  (forall r, r ∈ l -> p r = false) -> List.filter p l = [].
Proof.
  intros Hno. induction l as [|x rest IH]; [done|].
  cbn [List.filter]. rewrite (Hno x) by (by left).
  apply IH. intros r Hr. apply Hno. by right.
Qed.

(** X1: every rule that is loaded has one of the nine categories, so a
    query for any other category finds nothing. *)
Theorem unknown_category_finds_nothing ruleFiles category :
  category ∉ [ "general"; "coding"; "writing"; "research"; "communication";
               "data"; "project-management"; "security"; "devops" ] ->
  Forall (fun r => r.(metadata).(md_category) ∈
                     [ "general"; "coding"; "writing"; "research"; "communication";
                       "data"; "project-management"; "security"; "devops" ])
         (loadAllRules ruleFiles)
  /\ exists a st',
       bind (initialize ruleFiles) (fun _ => searchByCategory category) construct
       = Some (a, st')
       /\ st'.(arrays) !! a = Some [].
Proof.
  intros Hout.
  assert (Hall : Forall (fun r => r.(metadata).(md_category) ∈ validCategories)
                        (loadAllRules ruleFiles)).
  { apply Forall_forall. intros r Hr.
    apply list_elem_of_fmap in Hr as (doc & -> & _). apply inferCategory_valid. }
  split; [exact Hall|].
  erewrite bind_run by apply initialize_loaded.
  change (searchByCategory category) with (query (categoryCallback category)).
  erewrite query_run by apply loaded_index.
  eexists _, _. split; [reflexivity|].
  rewrite alloc_lookup. f_equal. apply filter_nothing.
  intros r Hr. rewrite Forall_forall in Hall. specialize (Hall r Hr).
  unfold categoryCallback. apply bool_decide_eq_false_2. intros Heq.
  apply Hout. by rewrite <- Heq.
Qed.

Lemma unknown_category_finds_nothing_witness :
  Forall (fun r => r.(metadata).(md_category) ∈
                     [ "general"; "coding"; "writing"; "research"; "communication";
                       "data"; "project-management"; "security"; "devops" ])
         (loadAllRules Demo.corpus)
  /\ exists a st',
       bind (initialize Demo.corpus) (fun _ => searchByCategory "notes") construct
       = Some (a, st')
       /\ st'.(arrays) !! a = Some [].
Proof.
  apply (unknown_category_finds_nothing Demo.corpus "notes").
  apply (bool_decide_unpack _). vm_compute. reflexivity.
Defined.

Lemma setAdd_elem tags tag t : t ∈ setAdd tags tag <-> t ∈ tags \/ t = tag.
Proof.
  unfold setAdd. rewrite Metadata.arrayIncludes_elem_of. case_bool_decide as Hin.
  - split; [by left|]. by intros [?| ->].
  - rewrite elem_of_app, list_elem_of_singleton. tauto.
Qed.

Lemma setAdd_NoDup tags tag : NoDup tags -> NoDup (setAdd tags tag).
Proof.
  intros Hnd. unfold setAdd. rewrite Metadata.arrayIncludes_elem_of.
  case_bool_decide as Hin; [done|].
  apply NoDup_app. split; [done|]. split; [|apply NoDup_singleton].
  intros x Hx ->%list_elem_of_singleton. done.
Qed.

Lemma addAll_elem values tags t :
  t ∈ fold_left setAdd values tags <-> t ∈ tags \/ t ∈ values.
Proof.
  revert tags. induction values as [|v rest IH]; intros tags; cbn [fold_left].
  - split; [by left|]. intros [?|Hin]; [done|]. by apply elem_of_nil in Hin.
  - rewrite IH, setAdd_elem, elem_of_cons. tauto.
Qed.

Lemma addAll_NoDup values tags : NoDup tags -> NoDup (fold_left setAdd values tags).
Proof.
  revert tags. induction values as [|v rest IH]; intros tags Hnd; cbn [fold_left]; [done|].
  by apply IH, setAdd_NoDup.
Qed.

Lemma collect_elem cond table init t :
  t ∈ collect cond table init
  <-> t ∈ init \/ exists kv, kv ∈ table /\ cond kv = true /\ t ∈ kv.2.
Proof.
  unfold collect. revert init. induction table as [|kv rest IH]; intros init; cbn [fold_left].
  - split; [by left|]. intros [?|(kv & Hin & _)]; [done|]. by apply elem_of_nil in Hin.
  - rewrite IH. destruct (cond kv) eqn:Hc.
    + rewrite addAll_elem. split.
      * intros [[?|?]|(kv' & Hin & Hc' & Ht)]; [by left| |].
        -- right. exists kv. split; [by left|done].
        -- right. exists kv'. split; [by right|done].
      * intros [?|(kv' & Hin & Hc' & Ht)]; [by left; left|].
        apply elem_of_cons in Hin as [->|Hin].
        -- left. by right.
        -- right. by exists kv'.
    + split.
      * intros [?|(kv' & Hin & Hc' & Ht)]; [by left|].
        right. exists kv'. split; [by right|done].
      * intros [?|(kv' & Hin & Hc' & Ht)]; [by left|].
        apply elem_of_cons in Hin as [->|Hin]; [congruence|].
        right. by exists kv'.
Qed.

Lemma collect_NoDup cond table init : NoDup init -> NoDup (collect cond table init).
Proof.
  unfold collect. revert init. induction table as [|kv rest IH]; intros init Hnd;
    cbn [fold_left]; [done|].
  apply IH. destruct (cond kv); [by apply addAll_NoDup | done].
Qed.

Lemma generateTags_collect filename content :
  generateTags filename content
  = let tags := collect (fun kv => mentions filename content kv.1) commonTags [] in
    if (length tags =? 0)%nat then ["best-practices"] else tags.
Proof.
  unfold generateTags, collect, mentions. cbv zeta.
  by destruct (fold_left _ commonTags []).
Qed.

(** X2: the generated tags are pairwise different and belong to the nine
    tags of the table. *)
Theorem generated_tags_distinct_known filename content :
  NoDup (generateTags filename content)
  /\ Forall (fun t => t ∈ [ "performance"; "optimization"; "security"; "testing"; "tdd";
                            "unit-tests"; "accessibility"; "a11y"; "best-practices" ])
            (generateTags filename content).
Proof.
  rewrite generateTags_collect. cbv zeta.
  destruct (length _ =? 0)%nat.
  - split; [apply NoDup_singleton|]. apply Forall_singleton.
    apply (bool_decide_unpack _). by vm_compute.
  - split; [apply collect_NoDup, NoDup_nil_2|].
    apply Forall_forall. intros t Ht.
    apply collect_elem in Ht as [Ht|(kv & Hkv & _ & Ht)]; [by apply elem_of_nil in Ht|].
    assert (Hsub : Forall (fun kv : string * list string =>
                             Forall (fun t => t ∈ tagVocabulary) kv.2) commonTags).
    { apply (bool_decide_unpack _). by vm_compute. }
    rewrite Forall_forall in Hsub. specialize (Hsub kv Hkv).
    rewrite Forall_forall in Hsub. by apply Hsub.
Qed.

Lemma collect_empty filename content :
  collect (fun kv => mentions filename content kv.1) commonTags [] = []
  <-> noKeyword filename content.
Proof.
  unfold noKeyword. split.
  - intros Hnil. apply Forall_forall. intros kv Hkv.
    destruct (mentions filename content kv.1) eqn:Hm.
    + assert (Hne : exists t, t ∈ kv.2).
      { assert (Hall : Forall (fun kv : string * list string => kv.2 <> []) commonTags).
        { apply (bool_decide_unpack _). by vm_compute. }
        rewrite Forall_forall in Hall. specialize (Hall kv Hkv).
        destruct kv.2 as [|t ?]; [done|]. exists t. by left. }
      destruct Hne as [t Ht].
      assert (Hin : t ∈ collect (fun kv => mentions filename content kv.1) commonTags []).
      { apply collect_elem. right. by exists kv. }
      rewrite Hnil in Hin. by apply elem_of_nil in Hin.
    + unfold mentions in Hm. by apply orb_false_iff in Hm.
  - intros Hno. rewrite Forall_forall in Hno.
    destruct (collect _ commonTags []) as [|t ts] eqn:Hc; [done|].
    assert (Hin : t ∈ collect (fun kv => mentions filename content kv.1) commonTags []).
    { rewrite Hc. by left. }
    apply collect_elem in Hin as [Hin|(kv & Hkv & Hm & _)]; [by apply elem_of_nil in Hin|].
    destruct (Hno kv Hkv) as [Hf Hb]. unfold mentions in Hm. by rewrite Hf, Hb in Hm.
Qed.

(** X3: a tag is generated exactly when a keyword of the table that has it
    occurs in the lowercased file name or body, or when it is
    "best-practices" and no keyword occurs at all. *)
Theorem generated_tag_iff filename content t :
  t ∈ generateTags filename content
  <-> (exists key values,
         (key, values) ∈ commonTags /\ mentions filename content key = true /\ t ∈ values)
      \/ (t = "best-practices" /\ noKeyword filename content).
Proof.
  rewrite generateTags_collect. cbv zeta.
  destruct (collect _ commonTags []) as [|t0 ts] eqn:Hc.
  - pose proof (proj1 (collect_empty filename content) Hc) as Hno.
    cbn. rewrite list_elem_of_singleton. split.
    + intros ->. by right.
    + intros [(key & values & Hkv & Hm & _)|[-> _]]; [|done].
      unfold noKeyword in Hno. rewrite Forall_forall in Hno.
      destruct (Hno _ Hkv) as [Hf Hb]. unfold mentions in Hm. cbn in Hf, Hb.
      by rewrite Hf, Hb in Hm.
  - cbn [length Nat.eqb]. rewrite <- Hc, collect_elem. split.
    + intros [Hin|(kv & Hkv & Hm & Ht)]; [by apply elem_of_nil in Hin|].
      left. exists kv.1, kv.2. by destruct kv.
    + intros [(key & values & Hkv & Hm & Ht)|[_ Hno]].
      * right. by exists (key, values).
      * apply collect_empty in Hno. congruence.
Qed.

Lemma keyword_tags_generated filename content key values t :
  (key, values) ∈ commonTags -> mentions filename content key = true -> t ∈ values ->
  t ∈ generateTags filename content.
Proof.
  intros Hkv Hm Ht. rewrite generateTags_collect. cbv zeta.
  assert (Hin : t ∈ collect (fun kv => mentions filename content kv.1) commonTags []).
  { apply collect_elem. right. by exists (key, values). }
  destruct (collect _ commonTags []) as [|t0 ts]; [by apply elem_of_nil in Hin | done].
Qed.

Lemma search_loaded ruleFiles (p : Rule -> bool) doc :
  doc ∈ ruleFiles -> p (loadRule doc) = true ->
  exists a st' found,
    bind (initialize ruleFiles) (fun _ => query p) construct = Some (a, st')
    /\ st'.(arrays) !! a = Some found
    /\ loadRule doc ∈ found.
Proof.
  intros Hdoc Hp.
  erewrite bind_run by apply initialize_loaded.
  erewrite query_run by apply loaded_index.
  eexists _, _, _. split; [reflexivity|]. split; [apply alloc_lookup|].
  apply Analyzer.elem_of_List_filter. split; [by apply elem_of_loadAllRules | done].
Qed.

(** X4: a document whose header declares no tags and whose file name or
    body mentions a keyword of the table is returned by [searchByTags] for
    each tag of that keyword. *)
Theorem mentioned_keyword_is_found ruleFiles doc key values tag :
  doc ∈ ruleFiles ->
  fm_tags doc.(doc_data) = None ->
  (key, values) ∈ commonTags ->
  mentions (basename doc.(doc_path)) doc.(doc_content) key = true ->
  tag ∈ values ->
  exists a st' found,
    bind (initialize ruleFiles) (fun _ => searchByTags [tag]) construct = Some (a, st')
    /\ st'.(arrays) !! a = Some found
    /\ loadRule doc ∈ found.
Proof.
  intros Hdoc Hnone Hkv Hm Ht.
  apply (search_loaded ruleFiles (tagsCallback [tag]) doc Hdoc).
  apply Analyzer.tagsCallback_sharesTag. unfold sharesTag. apply Exists_cons_hd.
  unfold loadRule, generateMetadata. cbn [metadata md_tags]. rewrite Hnone.
  by eapply keyword_tags_generated.
Qed.

Lemma mentioned_keyword_is_found_witness :
  exists a st' found,
    bind (initialize Demo.corpus) (fun _ => searchByTags ["tdd"]) construct = Some (a, st')
    /\ st'.(arrays) !! a = Some found
    /\ loadRule Demo.python ∈ found.
Proof.
  apply (mentioned_keyword_is_found Demo.corpus Demo.python
           "testing" ["testing"; "tdd"; "unit-tests"] "tdd").
  - unfold Demo.corpus. repeat constructor.
  - reflexivity.
  - apply (bool_decide_unpack _). by vm_compute.
  - by vm_compute.
  - apply (bool_decide_unpack _). by vm_compute.
Defined.

Lemma find_none_iff {A} (f : A -> bool) l :
  List.find f l = None <-> Forall (fun x => f x = false) l.
Proof.
  induction l as [|x rest IH]; cbn [List.find].
  - split; [constructor | done].
  - rewrite Forall_cons. destruct (f x).
    + split; [done | by intros [? _]].
    + rewrite IH. split; [by split | by intros [_ ?]].
Qed.

Lemma filter_nil_iff {A} (f : A -> bool) l :
  List.filter f l = [] <-> Forall (fun x => f x = false) l.
Proof.
  induction l as [|x rest IH]; cbn [List.filter].
  - split; [constructor | done].
  - rewrite Forall_cons. destruct (f x).
    + split; [done | by intros [? _]].
    + rewrite IH. split; [by split | by intros [_ ?]].
Qed.

Lemma languageMap_tokens :
  Forall (fun kv : string * string => kv.2 ∈ languageTokens) languageMap.
Proof. apply (bool_decide_unpack _). by vm_compute. Qed.

Lemma inferLanguage_filename filename content :
  ~ noLanguageKey filename ->
  exists key token, (key, token) ∈ languageMap
    /\ Js.includes (Js.toLowerCase filename) key = true
    /\ inferLanguage filename content = LangOne token.
Proof.
  intros Hkey. unfold inferLanguage.
  destruct (List.find _ languageMap) as [[key token]|] eqn:Hfind.
  - apply find_some in Hfind as [Hin Hinc]. exists key, token.
    split; [by apply list_elem_of_In|]. by split.
  - apply find_none_iff in Hfind. done.
Qed.

Lemma inferLanguage_body filename content :
  noLanguageKey filename ->
  inferLanguage filename content
  = let languages :=
      snd <$> List.filter (fun kv => Js.includes (Js.toLowerCase content) kv.1) languageMap in
    if (0 <? length languages)%nat then LangMany languages else LangOne "universal".
Proof.
  intros Hno. unfold inferLanguage.
  by rewrite (proj2 (find_none_iff _ _) Hno).
Qed.

(** X5: the inferred language is a single token of the table exactly when
    the lowercased file name contains a key; otherwise it is a non-empty
    array of tokens when the lowercased body contains one, and "universal"
    when neither does. *)
Theorem inferred_language_cases filename content :
  match inferLanguage filename content with
  | LangOne l =>
      (l ∈ [ "python"; "javascript"; "typescript"; "go"; "rust"; "java"; "csharp" ]
       /\ ~ noLanguageKey filename)
      \/ (l = "universal" /\ noLanguageKey filename /\ noLanguageKey content)
  | LangMany ls =>
      ls <> []
      /\ Forall (fun l => l ∈ [ "python"; "javascript"; "typescript"; "go"; "rust";
                                "java"; "csharp" ]) ls
      /\ noLanguageKey filename /\ ~ noLanguageKey content
  end.
Proof.
  destruct (decide (noLanguageKey filename)) as [Hno|Hkey].
  - rewrite (inferLanguage_body _ _ Hno). cbv zeta.
    destruct (List.filter _ languageMap) as [|kv kvs] eqn:Hf.
    + right. apply filter_nil_iff in Hf. by repeat split.
    + cbn [fmap list_fmap length Nat.ltb Nat.leb].
      split; [done|]. split; [|split; [done|]].
      * change (Forall (fun l => l ∈ languageTokens) (snd <$> kv :: kvs)).
        rewrite <- Hf. apply Forall_fmap, Forall_forall. intros kv' Hkv'.
        apply list_elem_of_In, filter_In in Hkv' as [Hin _].
        pose proof languageMap_tokens as Hall. rewrite Forall_forall in Hall.
        by apply Hall, list_elem_of_In.
      * intros Hnoc. apply filter_nil_iff in Hnoc. congruence.
  - destruct (inferLanguage_filename filename content Hkey) as (key & token & Hin & _ & ->).
    left. split; [|done].
    pose proof languageMap_tokens as Hall. rewrite Forall_forall in Hall.
    exact (Hall _ Hin).
Qed.

Lemma prefix_trans a b s :
  String.prefix a b = true -> String.prefix b s = true -> String.prefix a s = true.
Proof.
  revert b s. induction a as [|x a IH]; intros b s Hab Hbs; [by destruct s|].
  destruct b as [|y b]; [done|]. destruct s as [|z s]; [done|].
  cbn in *. destruct (ascii_dec x y) as [->|]; [|done].
  destruct (ascii_dec y z) as [->|]; [|done].
  destruct (ascii_dec z z); [|done]. by eapply IH.
Qed.

Lemma includes_prefix s a b :
  String.prefix a b = true -> Js.includes s b = true -> Js.includes s a = true.
Proof.
  intros Hab. induction s as [|x s IH]; cbn [Js.includes]; rewrite !orb_true_iff.
  - intros [Hb|?]; [|done]. left. by eapply prefix_trans.
  - intros [Hb|Hb]; [left; by eapply prefix_trans | right; by apply IH].
Qed.

(** X6: when the file name names no language, a body that mentions
    "javascript" makes the rule a Java rule as well: "java" occurs in
    "javascript", so both tokens are inferred and [searchByLanguage("java")]
    returns the rule. *)
Theorem javascript_body_counts_as_java doc :
  noLanguageKey (basename doc.(doc_path)) ->
  Js.includes (Js.toLowerCase doc.(doc_content)) "javascript" = true ->
  exists ls,
    (loadRule doc).(metadata).(md_language) = LangMany ls
    /\ "javascript" ∈ ls /\ "java" ∈ ls
    /\ languageCallback "java" (loadRule doc) = true.
Proof.
  intros Hno Hjs.
  assert (Hjava : Js.includes (Js.toLowerCase doc.(doc_content)) "java" = true).
  { by apply (includes_prefix _ "java" "javascript"). }
  unfold loadRule, generateMetadata. cbn [metadata md_language].
  rewrite (inferLanguage_body _ _ Hno). cbv zeta.
  set (ls := snd <$> List.filter _ languageMap).
  assert (Hin : forall key token, (key, token) ∈ languageMap ->
                  Js.includes (Js.toLowerCase doc.(doc_content)) key = true -> token ∈ ls).
  { intros key token Hkv Hinc. unfold ls.
    apply (list_elem_of_fmap_2 snd _ (key, token)).
    apply list_elem_of_In, filter_In. split; [by apply list_elem_of_In | done]. }
  assert (H1 : "javascript" ∈ ls).
  { apply (Hin "javascript"); [|done]. apply (bool_decide_unpack _). by vm_compute. }
  assert (H2 : "java" ∈ ls).
  { apply (Hin "java"); [|done]. apply (bool_decide_unpack _). by vm_compute. }
  destruct ls as [|l0 ls0] eqn:Hls; [by apply elem_of_nil in H1|].
  exists (l0 :: ls0). cbn [length Nat.ltb Nat.leb]. split; [done|]. split; [done|].
  split; [done|].
  unfold languageCallback. cbn [metadata md_language].
  apply orb_true_iff. left. by apply Analyzer.arrayIncludes_true.
Qed.

Lemma javascript_body_counts_as_java_witness :
  exists ls,
    (loadRule Samples.web).(metadata).(md_language) = LangMany ls
    /\ "javascript" ∈ ls /\ "java" ∈ ls
    /\ languageCallback "java" (loadRule Samples.web) = true.
Proof.
  apply (javascript_body_counts_as_java Samples.web).
  - apply (bool_decide_unpack _). by vm_compute.
  - by vm_compute.
Defined.

(** X7: a document whose file name and body name no language is loaded as
    "universal" and is returned by [searchByLanguage] for every language. *)
Theorem neutral_document_found_for_every_language ruleFiles doc language :
  doc ∈ ruleFiles ->
  noLanguageKey (basename doc.(doc_path)) ->
  noLanguageKey doc.(doc_content) ->
  (loadRule doc).(metadata).(md_language) = LangOne "universal"
  /\ exists a st' found,
       bind (initialize ruleFiles) (fun _ => searchByLanguage language) construct
       = Some (a, st')
       /\ st'.(arrays) !! a = Some found
       /\ loadRule doc ∈ found.
Proof.
  intros Hdoc Hname Hbody.
  assert (Hlang : (loadRule doc).(metadata).(md_language) = LangOne "universal").
  { unfold loadRule, generateMetadata. cbn [metadata md_language].
    rewrite (inferLanguage_body _ _ Hname). cbv zeta.
    by rewrite (proj2 (filter_nil_iff _ _) Hbody). }
  split; [exact Hlang|].
  apply (search_loaded ruleFiles (languageCallback language) doc Hdoc).
  apply Analyzer.languageCallback_hasLanguage. right. unfold hasLanguage.
  by rewrite Hlang.
Qed.

Lemma neutral_document_found_for_every_language_witness :
  (loadRule Demo.plain).(metadata).(md_language) = LangOne "universal"
  /\ exists a st' found,
       bind (initialize Demo.corpus) (fun _ => searchByLanguage "rust") construct
       = Some (a, st')
       /\ st'.(arrays) !! a = Some found
       /\ loadRule Demo.plain ∈ found.
Proof.
  apply (neutral_document_found_for_every_language Demo.corpus Demo.plain "rust").
  - unfold Demo.corpus. repeat constructor.
  - apply (bool_decide_unpack _). by vm_compute.
  - apply (bool_decide_unpack _). by vm_compute.
Defined.

End Loading.

(** ** More on the metadata: titles and ids *)

Module Titles.
Import RuleLoader Spec Describe.

Lemma lowerChar_upperChar c : Js.lowerChar (Js.upperChar c) = Js.lowerChar c.
Proof. destruct c as [[] [] [] [] [] [] [] []]; reflexivity. Qed.

Lemma toLowerCase_length s : String.length (Js.toLowerCase s) = String.length s.
Proof. induction s as [|c s IH]; [done|]. cbn. by rewrite IH. Qed.

Lemma replaceAll_length c d s : String.length (Js.replaceAll c d s) = String.length s.
Proof. induction s as [|x s IH]; [done|]. cbn. by rewrite IH. Qed.

Lemma split_cons c s : exists w ws, Js.split c s = w :: ws.
Proof.
  destruct s as [|x s]; cbn; [by eexists _, _|].
  case_bool_decide; [by eexists _, _|].
  destruct (Js.split c s); by eexists _, _.
Qed.

Lemma join_cons_String sep a w tl :
  Js.join sep (String a w :: tl) = String a (Js.join sep (w :: tl)).
Proof. by destruct tl. Qed.

Lemma join_capitalize_lower sep w tl :
  Js.toLowerCase (Js.join sep (capitalize w :: tl))
  = Js.toLowerCase (Js.join sep (w :: tl)).
Proof.
  destruct w as [|a w]; [done|].
  cbn [capitalize]. rewrite !join_cons_String. cbn [Js.toLowerCase].
  by rewrite lowerChar_upperChar.
Qed.

(** Splitting at spaces, capitalizing and joining with spaces changes the
    case only. *)
Lemma capitalized_words_lower s :
  Js.toLowerCase (Js.join " " (capitalize <$> Js.split " " s)) = Js.toLowerCase s.
Proof.
  induction s as [|x s IH]; [done|].
  destruct (split_cons " " s) as (w & ws & Hs).
  cbn [Js.split]. rewrite Hs in IH |- *. case_bool_decide as Hx.
  - subst x. rewrite fmap_cons in IH. rewrite !fmap_cons.
    change (Js.join " " (capitalize "" :: capitalize w :: (capitalize <$> ws)))
      with (String " " (Js.join " " (capitalize w :: (capitalize <$> ws)))).
    cbn [Js.toLowerCase]. by rewrite IH.
  - rewrite fmap_cons in IH. rewrite !fmap_cons. rewrite join_capitalize_lower in IH.
    cbn [capitalize]. rewrite join_cons_String. cbn [Js.toLowerCase].
    by rewrite IH, lowerChar_upperChar.
Qed.

(** X8: on a file name of 7-bit characters [formatTitle] changes hyphens
    into spaces and the case of letters, and nothing else: lowercased, the
    title is the lowercased file name with spaces for hyphens, and it has
    the length of the file name. *)
Theorem formatTitle_keeps_the_name filename :
  sevenBit filename ->
  Js.toLowerCase (formatTitle filename)
  = Js.toLowerCase (Js.replaceAll "-" " " filename)
  /\ String.length (formatTitle filename) = String.length filename.
Proof.
  intros _.
  assert (Hlow : Js.toLowerCase (formatTitle filename)
                 = Js.toLowerCase (Js.replaceAll "-" " " filename)).
  { unfold formatTitle. apply capitalized_words_lower. }
  split; [exact Hlow|].
  rewrite <- (toLowerCase_length (formatTitle filename)), Hlow.
  by rewrite toLowerCase_length, replaceAll_length.
Qed.

Lemma formatTitle_keeps_the_name_witness :
  Js.toLowerCase (formatTitle "python-Web-rules")
  = Js.toLowerCase (Js.replaceAll "-" " " "python-Web-rules")
  /\ String.length (formatTitle "python-Web-rules") = String.length "python-Web-rules".
Proof.
  apply (formatTitle_keeps_the_name "python-Web-rules").
  cbn. repeat split.
Defined.

Lemma formatTitle_length filename :
  String.length (formatTitle filename) = String.length filename.
Proof.
  rewrite <- (toLowerCase_length (formatTitle filename)).
  unfold formatTitle. rewrite capitalized_words_lower.
  by rewrite toLowerCase_length, replaceAll_length.
Qed.

Lemma orElse_nonempty a b : b <> "" -> Js.orElse a b <> "".
Proof.
  intros Hb. unfold Js.orElse. destruct a as [[|c s]|]; cbn; done.
Qed.

(** X9: a document whose file name is not empty gets a title and an id
    that are not empty, whatever its header and body are. *)
Theorem title_and_id_nonempty path frontmatter content :
  basename path <> "" ->
  md_title (generateMetadata path frontmatter content) <> ""
  /\ md_id (generateMetadata path frontmatter content) <> "".
Proof.
  intros Hname. unfold generateMetadata. cbn [md_title md_id].
  split; [|by apply orElse_nonempty].
  apply orElse_nonempty, orElse_nonempty.
  intros Hempty. apply Hname.
  pose proof (formatTitle_length (basename path)) as Hlen. rewrite Hempty in Hlen.
  by destruct (basename path).
Qed.

Lemma title_and_id_nonempty_witness :
  md_title (generateMetadata "notes/rules.md" Demo.header "#") <> ""
  /\ md_id (generateMetadata "notes/rules.md" Demo.header "#") <> "".
Proof.
  apply (title_and_id_nonempty "notes/rules.md" Demo.header "#").
  by vm_compute.
Defined.

Lemma append_nil_l s : "" +:+ s = s.
Proof. reflexivity. Qed.

Lemma append_cons c t s : String c t +:+ s = String c (t +:+ s).
Proof. reflexivity. Qed.

Lemma untilEol_line t rest :
  oneLine t -> atLineEnd rest -> untilEol (t +:+ rest) = t.
Proof.
  intros Ht Hrest. induction t as [|c t IH].
  - rewrite append_nil_l. destruct rest as [|x rest]; [done|].
    unfold atLineEnd in Hrest. cbn [untilEol]. by rewrite Hrest.
  - destruct Ht as [Hc Ht]. rewrite append_cons. cbn [untilEol].
    rewrite Hc. by rewrite IH.
Qed.

Lemma matchHeading_without b pre s :
  without "#" pre ->
  matchHeading b (pre +:+ s) = matchHeading (lineStartAfter b pre) s.
Proof.
  revert b. induction pre as [|c pre IH]; intros b Hpre; [done|].
  destruct Hpre as [Hc Hpre]. rewrite append_cons. cbn [matchHeading lineStartAfter].
  rewrite (bool_decide_eq_false_2 (c = "#"%char)) by done.
  rewrite andb_false_r. by apply IH.
Qed.

(** X10: in 7-bit text, when a line starts with "# " and goes on with text,
    and no "#" occurs before that line, the title extracted from the body is
    that text, trimmed. *)
Theorem first_heading_is_the_title pre t rest :
  sevenBit pre -> sevenBit t ->
  without "#" pre -> lineStartAfter true pre = true ->
  startsText t -> oneLine t -> atLineEnd rest ->
  extractTitle (pre +:+ "# " +:+ t +:+ rest) = Some (Js.trim t).
Proof.
  intros _ _ Hpre Hstart Htext Hline Hrest. unfold extractTitle.
  rewrite matchHeading_without by done. rewrite Hstart.
  destruct t as [|c t]; [done|]. unfold startsText in Htext.
  rewrite !append_cons, append_nil_l.
  cbn [matchHeading andb spacesThenGroup].
  rewrite bool_decide_eq_true_2 by done.
  change (Js.isWhiteSpace " ") with true. cbv iota. rewrite Htext.
  rewrite <- append_cons.
  unfold dotPlusEol. by rewrite untilEol_line.
Qed.

Lemma first_heading_is_the_title_witness :
  extractTitle (("intro" +:+ Demo.nl) +:+ "# " +:+ "My Rules  " +:+ (Demo.nl +:+ "text"))
  = Some "My Rules".
Proof.
  apply (first_heading_is_the_title ("intro" +:+ Demo.nl) "My Rules  " (Demo.nl +:+ "text")).
  - cbn. repeat split.
  - cbn. repeat split.
  - cbn. repeat split; discriminate.
  - reflexivity.
  - reflexivity.
  - cbn. repeat split.
  - reflexivity.
Defined.

Lemma matchHeading_no_hash b s : without "#" s -> matchHeading b s = None.
Proof.
  revert b. induction s as [|c s IH]; intros b Hs; [done|].
  destruct Hs as [Hc Hs]. cbn [matchHeading].
  rewrite (bool_decide_eq_false_2 (c = "#"%char)) by done.
  rewrite andb_false_r. by apply IH.
Qed.

(** X11: a body without any "#" has no heading: the title is the header's
    when it declares one that is not empty, and the formatted file name
    otherwise. *)
Theorem title_without_heading path frontmatter content :
  without "#" content ->
  extractTitle content = None
  /\ md_title (generateMetadata path frontmatter content)
     = Js.orElse frontmatter.(fm_title) (formatTitle (basename path)).
Proof.
  intros Hno.
  assert (Hnone : extractTitle content = None).
  { unfold extractTitle. by rewrite matchHeading_no_hash. }
  split; [exact Hnone|].
  unfold generateMetadata. cbn [md_title]. by rewrite Hnone.
Qed.

Lemma title_without_heading_witness :
  extractTitle "plain words" = None
  /\ md_title (generateMetadata "notes/style-rules.md" noFrontmatter "plain words")
     = "Style Rules".
Proof.
  apply (title_without_heading "notes/style-rules.md" noFrontmatter "plain words").
  cbn. repeat split; discriminate.
Defined.

End Titles.

(** ** More on the metadata: file names *)

Module Names.
Import RuleLoader Spec Describe.

Lemma split_without c s : without c s -> Js.split c s = [s].
Proof.
  induction s as [|x s IH]; [done|]. intros [Hx Hs]. cbn [Js.split].
  rewrite bool_decide_eq_false_2 by done. by rewrite IH.
Qed.

Lemma split_app c a b :
  Js.split c (a +:+ String c b) = Js.split c a ++ Js.split c b.
Proof.
  induction a as [|x a IH].
  - rewrite Titles.append_nil_l. cbn [Js.split]. by rewrite bool_decide_eq_true_2.
  - rewrite Titles.append_cons. cbn [Js.split]. rewrite IH. case_bool_decide; [done|].
    destruct (Titles.split_cons c a) as (w & ws & ->). done.
Qed.

Lemma last_app_cons {A} (l1 : list A) x l2 d :
  List.last (l1 ++ x :: l2) d = List.last (x :: l2) d.
Proof.
  induction l1 as [|y l1 IH]; [done|].
  rewrite <- app_comm_cons, <- IH.
  destruct (l1 ++ x :: l2) eqn:Happ; [by destruct l1 | done].
Qed.

Lemma length_append a b : String.length (a +:+ b) = (String.length a + String.length b)%nat.
Proof. induction a as [|x a IH]; [done|]. rewrite Titles.append_cons. cbn. by rewrite IH. Qed.

Lemma substring_all b : String.substring 0 (String.length b) b = b.
Proof. induction b as [|x b IH]; [done|]. cbn. by rewrite IH. Qed.

Lemma substring_skip a b :
  String.substring (String.length a) (String.length b) (a +:+ b) = b.
Proof.
  induction a as [|x a IH]; [apply substring_all|].
  rewrite Titles.append_cons. cbn. exact IH.
Qed.

Lemma substring_take a b : String.substring 0 (String.length a) (a +:+ b) = a.
Proof.
  induction a as [|x a IH].
  - rewrite Titles.append_nil_l. by destruct b.
  - rewrite Titles.append_cons. cbn. by rewrite IH.
Qed.

Lemma stripMd_md name : name <> "" -> stripMd (name +:+ ".md") = name.
Proof.
  intros Hname. unfold stripMd. rewrite length_append.
  change (String.length ".md") with 3%nat.
  replace (String.length name + 3 - 3)%nat with (String.length name) by lia.
  assert (Hlen : (3 <? String.length name + 3)%nat = true).
  { apply Nat.ltb_lt. destruct name; [done|]. cbn. lia. }
  rewrite Hlen. cbn [andb].
  pose proof (substring_skip name ".md") as Hskip.
  change (String.length ".md") with 3%nat in Hskip. rewrite Hskip.
  rewrite bool_decide_eq_true_2 by done.
  apply substring_take.
Qed.

Lemma basename_file name : without "/" name -> basename name = stripMd name.
Proof. intros Hname. unfold basename, sep. by rewrite split_without. Qed.

Lemma without_app c a b : without c a -> without c b -> without c (a +:+ b).
Proof.
  intros Ha Hb. induction a as [|x a IH]; [done|].
  destruct Ha as [Hx Ha]. rewrite Titles.append_cons. split; [done|]. by apply IH.
Qed.

Lemma basename_dir dir file : without "/" file -> basename (dir +:+ "/" +:+ file) = stripMd file.
Proof.
  intros Hfile. unfold basename, sep.
  change (dir +:+ "/" +:+ file) with (dir +:+ String "/" file).
  rewrite split_app, (split_without _ file) by done.
  by rewrite last_app_cons.
Qed.

(** X12: the file name of [dir/name.md], and of [name.md], is [name]; a
    document in such a file whose header declares no id gets the id
    [name], whatever the directory is. *)
Theorem id_is_the_file_stem dir name frontmatter content :
  name <> "" -> without "/" name -> fm_id frontmatter = None ->
  basename (name +:+ ".md") = name
  /\ basename (dir +:+ "/" +:+ name +:+ ".md") = name
  /\ md_id (generateMetadata (dir +:+ "/" +:+ name +:+ ".md") frontmatter content) = name.
Proof.
  intros Hname Hslash Hid.
  assert (Hfile : without "/" (name +:+ ".md")).
  { apply without_app; [done|]. cbn. repeat split; discriminate. }
  assert (Hdir : basename (dir +:+ "/" +:+ name +:+ ".md") = name).
  { rewrite basename_dir by done. by apply stripMd_md. }
  split; [|split; [exact Hdir|]].
  - rewrite basename_file by done. by apply stripMd_md.
  - unfold generateMetadata. cbn [md_id]. by rewrite Hid, Hdir.
Qed.

Lemma id_is_the_file_stem_witness :
  basename ("rules" +:+ ".md") = "rules"
  /\ basename ("coding/web" +:+ "/" +:+ "rules" +:+ ".md") = "rules"
  /\ md_id (generateMetadata ("coding/web" +:+ "/" +:+ "rules" +:+ ".md") noFrontmatter "x")
     = "rules".
Proof.
  apply (id_is_the_file_stem "coding/web" "rules" noFrontmatter "x").
  - discriminate.
  - cbn. repeat split; discriminate.
  - reflexivity.
Defined.

End Names.

(** ** More on the analyzer: linked rules and bundles *)

Module Bundles.
Import RuleAnalyzer Spec Describe Run Lists.

Lemma Array_find_run st arr p items :
  st.(arrays) !! arr = Some items ->
  Array_find arr p st = Some (List.find p items, st).
Proof. intros H. unfold Array_find, bind, readArray, ret. by rewrite H. Qed.

Lemma sublist_List_filter (p : Rule -> bool) l : sublist (List.filter p l) l.
Proof.
  induction l as [|x l IH]; [constructor|]. cbn [List.filter].
  destruct (p x); [by apply sublist_skip | by apply sublist_cons].
Qed.

Lemma no_members {A} (l : list A) : (forall x, x ∉ l) -> l = [].
Proof. destruct l as [|x l]; [done|]. intros H. destruct (H x). by left. Qed.

Lemma ruleWithId_Some ruleId idx rule :
  ruleWithId ruleId idx = Some rule -> rule ∈ idx /\ ruleId = Spec.ruleId rule.
Proof.
  intros H. apply find_some in H as [Hin Hid]. split; [by apply list_elem_of_In|].
  unfold idCallback in Hid. by apply bool_decide_eq_true in Hid.
Qed.

Lemma getRelatedRules_run st idx ruleId :
  indexOf st = Some idx ->
  getRelatedRules ruleId st
  = Some (length st.(arrays), alloc st (linkedRules md_related ruleId idx)).
Proof.
  intros Hidx. unfold getRelatedRules.
  erewrite bind_run by reflexivity.
  erewrite bind_run by (apply Array_find_run; exact Hidx).
  unfold linkedRules, ruleWithId.
  destruct (List.find (idCallback ruleId) idx) as [rule|]; [|done].
  destruct rule.(metadata).(md_related) as [ids|]; [|done].
  by apply (query_run st (listedCallback ids)).
Qed.

Lemma getPrerequisites_run st idx ruleId :
  indexOf st = Some idx ->
  getPrerequisites ruleId st
  = Some (length st.(arrays), alloc st (linkedRules md_prerequisites ruleId idx)).
Proof.
  intros Hidx. unfold getPrerequisites.
  erewrite bind_run by reflexivity.
  erewrite bind_run by (apply Array_find_run; exact Hidx).
  unfold linkedRules, ruleWithId.
  destruct (List.find (idCallback ruleId) idx) as [rule|]; [|done].
  destruct rule.(metadata).(md_prerequisites) as [ids|]; [|done].
  by apply (query_run st (listedCallback ids)).
Qed.

(** What [linkedRules] holds. *)
Lemma linkedRules_spec field ruleId idx :
  let found := linkedRules field ruleId idx in
  sublist found idx
  /\ (forall r, r ∈ found <->
        r ∈ idx /\ exists rule ids,
          ruleWithId ruleId idx = Some rule /\ field rule.(metadata) = Some ids
          /\ Spec.ruleId r ∈ ids).
Proof.
  unfold linkedRules.
  destruct (ruleWithId ruleId idx) as [rule|];
    [destruct (field rule.(metadata)) as [ids|] eqn:Hfield|].
  - split; [apply sublist_List_filter|]. intros r.
    rewrite Analyzer.elem_of_List_filter. unfold listedCallback.
    rewrite Analyzer.arrayIncludes_true. split.
    + intros [Hin Hid]. split; [done|]. by exists rule, ids.
    + intros [Hin (rule' & ids' & Hr & Hf & Hid)].
      injection Hr as <-. rewrite Hfield in Hf. injection Hf as <-. by split.
  - split; [apply sublist_nil_l|]. intros r. split; [by intros ?%elem_of_nil|].
    intros [_ (rule' & ids' & Hr & Hf & _)].
    injection Hr as <-. by rewrite Hfield in Hf.
  - split; [apply sublist_nil_l|]. intros r. split; [by intros ?%elem_of_nil|].
    by intros [_ (rule' & ids' & Hr & _)].
Qed.

(** X13: [getRelatedRules(id)] returns, in the order of the index, the
    rules whose id is listed in [related] of the first rule with that id,
    and leaves the index alone.  Listed ids that no rule has are dropped; an
    id that no rule has, or a list none of whose ids exists, gives the empty
    array. *)
Theorem related_rules_found st idx ruleId :
  indexOf st = Some idx ->
  exists a st' found,
    getRelatedRules ruleId st = Some (a, st')
    /\ unchanged st st'
    /\ st'.(arrays) !! a = Some found
    /\ sublist found idx
    /\ (forall r, r ∈ found <->
          r ∈ idx /\ exists rule ids,
            ruleWithId ruleId idx = Some rule
            /\ rule.(metadata).(md_related) = Some ids
            /\ Spec.ruleId r ∈ ids)
    /\ ((forall r, r ∈ idx -> Spec.ruleId r <> ruleId) -> found = [])
    /\ ((forall rule ids r,
           ruleWithId ruleId idx = Some rule ->
           rule.(metadata).(md_related) = Some ids ->
           r ∈ idx -> Spec.ruleId r ∉ ids) -> found = []).
Proof.
  intros Hidx.
  exists (length st.(arrays)), (alloc st (linkedRules md_related ruleId idx)),
         (linkedRules md_related ruleId idx).
  destruct (linkedRules_spec md_related ruleId idx) as [Hsub Hiff].
  split; [by apply getRelatedRules_run|]. split; [apply alloc_unchanged|].
  split; [apply alloc_lookup|]. split; [exact Hsub|]. split; [exact Hiff|]. split.
  - intros Hno. apply no_members. intros r [_ (rule & ids & Hr & _)]%Hiff.
    apply ruleWithId_Some in Hr as [Hin Hid]. by apply (Hno rule Hin).
  - intros Hno. apply no_members. intros r [Hin (rule & ids & Hr & Hf & Hid)]%Hiff.
    by apply (Hno rule ids r).
Qed.

Lemma related_rules_found_witness :
  exists a st' found,
    getRelatedRules "style" Samples.store = Some (a, st')
    /\ unchanged Samples.store st'
    /\ st'.(arrays) !! a = Some found
    /\ sublist found Samples.index
    /\ (forall r, r ∈ found <->
          r ∈ Samples.index /\ exists rule ids,
            ruleWithId "style" Samples.index = Some rule
            /\ rule.(metadata).(md_related) = Some ids
            /\ Spec.ruleId r ∈ ids)
    /\ ((forall r, r ∈ Samples.index -> Spec.ruleId r <> "style") -> found = [])
    /\ ((forall rule ids r,
           ruleWithId "style" Samples.index = Some rule ->
           rule.(metadata).(md_related) = Some ids ->
           r ∈ Samples.index -> Spec.ruleId r ∉ ids) -> found = []).
Proof. exact (related_rules_found Samples.store Samples.index "style" eq_refl). Defined.

(** X14: [getPrerequisites(id)] returns, in the order of the index, the
    rules whose id is listed in [prerequisites] of the first rule with that
    id, and leaves the index alone; an id that no rule has gives the empty
    array. *)
Theorem prerequisites_found st idx ruleId :
  indexOf st = Some idx ->
  exists a st' found,
    getPrerequisites ruleId st = Some (a, st')
    /\ unchanged st st'
    /\ st'.(arrays) !! a = Some found
    /\ sublist found idx
    /\ (forall r, r ∈ found <->
          r ∈ idx /\ exists rule ids,
            ruleWithId ruleId idx = Some rule
            /\ rule.(metadata).(md_prerequisites) = Some ids
            /\ Spec.ruleId r ∈ ids)
    /\ ((forall r, r ∈ idx -> Spec.ruleId r <> ruleId) -> found = []).
Proof.
  intros Hidx.
  exists (length st.(arrays)), (alloc st (linkedRules md_prerequisites ruleId idx)),
         (linkedRules md_prerequisites ruleId idx).
  destruct (linkedRules_spec md_prerequisites ruleId idx) as [Hsub Hiff].
  split; [by apply getPrerequisites_run|]. split; [apply alloc_unchanged|].
  split; [apply alloc_lookup|]. split; [exact Hsub|]. split; [exact Hiff|].
  intros Hno. apply no_members. intros r [_ (rule & ids & Hr & _)]%Hiff.
  apply ruleWithId_Some in Hr as [Hin Hid]. by apply (Hno rule Hin).
Qed.

Lemma prerequisites_found_witness :
  exists a st' found,
    getPrerequisites "style" Samples.store = Some (a, st')
    /\ unchanged Samples.store st'
    /\ st'.(arrays) !! a = Some found
    /\ sublist found Samples.index
    /\ (forall r, r ∈ found <->
          r ∈ Samples.index /\ exists rule ids,
            ruleWithId "style" Samples.index = Some rule
            /\ rule.(metadata).(md_prerequisites) = Some ids
            /\ Spec.ruleId r ∈ ids)
    /\ ((forall r, r ∈ Samples.index -> Spec.ruleId r <> "style") -> found = []).
Proof. exact (prerequisites_found Samples.store Samples.index "style" eq_refl). Defined.

Lemma facetRules_subset o cb idx r : r ∈ facetRules o cb idx -> r ∈ idx.
Proof.
  unfold facetRules. destruct o as [s|]; [destruct (Js.truthy s)|];
    try (by intros ?%elem_of_nil).
  by intros [? _]%Analyzer.elem_of_List_filter.
Qed.

Lemma workingList_subset idx context r : r ∈ workingList idx context -> r ∈ idx.
Proof.
  unfold workingList. rewrite !elem_of_app.
  intros [Hr|[Hr|[Hr|[Hr|Hr]]]]; try (by eapply facetRules_subset).
  - by apply Analyzer.elem_of_List_filter in Hr as [? _].
  - unfold priorityRules in Hr. destruct context.(ctx_priorities) as [ps|];
      [|by apply elem_of_nil in Hr].
    apply list_elem_of_In, in_flat_map in Hr as (p & _ & Hr).
    by apply list_elem_of_In, Analyzer.elem_of_List_filter in Hr as [? _].
Qed.

Lemma dedup_subset w r : r ∈ dedup w -> r ∈ w.
Proof. intros Hr. eapply elem_of_sublist; [exact Hr | apply filterWith_seen_sublist]. Qed.

Lemma bundleRules_subset idx context r : r ∈ bundleRules idx context -> r ∈ idx.
Proof.
  unfold bundleRules. rewrite stableSort_perm.
  intros Hr. by eapply workingList_subset, dedup_subset.
Qed.

(** X15: every rule of a recommended bundle is a rule of the index.  On an
    empty index the bundle has no rules, and its scenarios are what they are
    on any index: the labels are pushed whether or not a query finds rules,
    "general-ai-operations" first. *)
Theorem bundle_from_index st idx context :
  indexOf st = Some idx ->
  exists b st' l,
    recommendBundle context st = Some (b, st')
    /\ st'.(arrays) !! b.(rules) = Some l
    /\ (forall r, r ∈ l -> r ∈ idx)
    /\ (idx = [] -> l = [])
    /\ b.(scenarios) = scenarioLabels context
    /\ head b.(scenarios) = Some "general-ai-operations".
Proof.
  intros Hidx.
  destruct (Analyzer.recommendBundle_keeps st idx context Hidx)
    as (b & st' & Hrun & _ & _ & Hview).
  injection Hview as _ _ Hlook Hscen.
  exists b, st', (bundleRules idx context). split; [done|]. split; [done|].
  split; [intros r; apply bundleRules_subset|]. split; [|by rewrite Hscen].
  intros ->. apply no_members. intros r Hr%bundleRules_subset.
  by apply elem_of_nil in Hr.
Qed.

Lemma bundle_from_index_witness :
  exists b st' l,
    recommendBundle Demo.context construct = Some (b, st')
    /\ st'.(arrays) !! b.(rules) = Some l
    /\ (forall r, r ∈ l -> r ∈ @nil Rule)
    /\ (@nil Rule = [] -> l = [])
    /\ b.(scenarios) = scenarioLabels Demo.context
    /\ head b.(scenarios) = Some "general-ai-operations".
Proof. exact (bundle_from_index construct [] Demo.context eq_refl). Defined.

Lemma find_app {A} (f : A -> bool) l1 l2 x :
  List.find f l1 = Some x -> List.find f (l1 ++ l2) = Some x.
Proof.
  induction l1 as [|y l1 IH]; [done|]. cbn [List.find app].
  by destruct (f y).
Qed.

Lemma find_is_Some {A} (f : A -> bool) l x :
  x ∈ l -> f x = true -> exists y, List.find f l = Some y.
Proof.
  intros Hin Hf. destruct (List.find f l) as [y|] eqn:Hfind; [by exists y|].
  apply Loading.find_none_iff in Hfind. rewrite Forall_forall in Hfind.
  specialize (Hfind x Hin). congruence.
Qed.

(** X16: when the index has a rule of category "general", every bundle
    holds exactly one rule with its id, and that rule is of category
    "general" too: the general rules are appended first, so a rule of
    another category with the same id (another [rules.md], say) is never
    recommended. *)
Theorem general_rule_shadows_its_id st idx context g :
  indexOf st = Some idx ->
  g ∈ idx -> g.(metadata).(md_category) = "general" ->
  exists b st' l,
    recommendBundle context st = Some (b, st')
    /\ st'.(arrays) !! b.(rules) = Some l
    /\ (exists r, r ∈ l /\ ruleId r = ruleId g)
    /\ (forall r, r ∈ l -> ruleId r = ruleId g ->
          r.(metadata).(md_category) = "general").
Proof.
  intros Hidx Hg Hcat.
  destruct (Analyzer.recommendBundle_keeps st idx context Hidx)
    as (b & st' & Hrun & _ & _ & Hview).
  injection Hview as _ _ Hlook _.
  exists b, st', (bundleRules idx context). split; [done|]. split; [done|].
  assert (HgG : g ∈ List.filter (categoryCallback "general") idx).
  { apply Analyzer.elem_of_List_filter. split; [done|].
    unfold categoryCallback. by apply bool_decide_eq_true_2. }
  unfold bundleRules.
  pose proof (stableSort_perm comparePriority (dedup (workingList idx context))) as Hperm.
  split.
  - destruct (filterWith_seen_complete ∅ (workingList idx context) g) as (r & Hr & Hid).
    { unfold workingList. apply elem_of_app. by left. }
    { apply not_elem_of_empty. }
    exists r. split; [by rewrite Hperm | done].
  - intros r Hr Hid. rewrite Hperm in Hr.
    apply filterWith_seen_first in Hr as [_ Hfirst]. unfold firstWithId in Hfirst.
    destruct (find_is_Some (fun x => bool_decide (ruleId x = ruleId r))
                (List.filter (categoryCallback "general") idx) g HgG) as [y Hy].
    { by apply bool_decide_eq_true_2. }
    unfold workingList in Hfirst. rewrite (find_app _ _ _ _ Hy) in Hfirst.
    injection Hfirst as <-.
    apply find_some in Hy as [Hy _].
    apply list_elem_of_In, Analyzer.elem_of_List_filter in Hy as [_ Hy].
    unfold categoryCallback in Hy. by apply bool_decide_eq_true in Hy.
Qed.

Lemma general_rule_shadows_its_id_witness :
  exists b st' l,
    recommendBundle Demo.context Samples.store = Some (b, st')
    /\ st'.(arrays) !! b.(rules) = Some l
    /\ (exists r, r ∈ l /\ ruleId r = ruleId (RuleLoader.loadRule Demo.general))
    /\ (forall r, r ∈ l -> ruleId r = ruleId (RuleLoader.loadRule Demo.general) ->
          r.(metadata).(md_category) = "general").
Proof.
  apply (general_rule_shadows_its_id Samples.store Samples.index Demo.context
           (RuleLoader.loadRule Demo.general) eq_refl).
  - unfold Samples.index. by left.
  - reflexivity.
Defined.

(** X17: when the context has a type and nothing else, and no rule of the
    index has that category, the bundle holds the general rules and no
    others: the first of each id, sorted by priority. *)
Theorem unmatched_type_gives_general_rules st idx type :
  indexOf st = Some idx ->
  (forall r, r ∈ idx -> r.(metadata).(md_category) <> type) ->
  exists b st',
    recommendBundle (typeOnly (Some type)) st = Some (b, st')
    /\ st'.(arrays) !! b.(rules)
       = Some (stableSort comparePriority
                 (dedup (List.filter (categoryCallback "general") idx))).
Proof.
  intros Hidx Hno.
  destruct (Analyzer.recommendBundle_keeps st idx (typeOnly (Some type)) Hidx)
    as (b & st' & Hrun & _ & _ & Hview).
  injection Hview as _ _ Hlook _.
  exists b, st'. split; [done|]. rewrite Hlook. unfold bundleRules, workingList.
  cbn [typeOnly ctx_type ctx_language ctx_framework ctx_priorities facetRules priorityRules].
  assert (Hnil : (if Js.truthy type then List.filter (categoryCallback type) idx else [])
                 = []).
  { destruct (Js.truthy type); [|done]. apply Loading.filter_nothing.
    intros r Hr. unfold categoryCallback. apply bool_decide_eq_false_2. by apply Hno. }
  rewrite Hnil. by rewrite !app_nil_r.
Qed.

Lemma unmatched_type_gives_general_rules_witness :
  exists b st',
    recommendBundle (typeOnly (Some "devops")) Demo.store = Some (b, st')
    /\ st'.(arrays) !! b.(rules)
       = Some (stableSort comparePriority
                 (dedup (List.filter (categoryCallback "general") Demo.index))).
Proof.
  apply (unmatched_type_gives_general_rules Demo.store Demo.index "devops" eq_refl).
  intros r Hr. unfold Demo.index in Hr.
  repeat (apply elem_of_cons in Hr as [->|Hr]; [by vm_compute|]).
  by apply elem_of_nil in Hr.
Defined.

Lemma idsOf_cons x l : idsOf (x :: l) = {[ ruleId x ]} ∪ idsOf l.
Proof. reflexivity. Qed.

Lemma seen_absorbs (seen ids : gset string) i : i ∈ seen -> seen ∪ ({[ i ]} ∪ ids) = seen ∪ ids.
Proof.
  intros Hi. apply set_eq. intros x. rewrite !elem_of_union, elem_of_singleton.
  split; [intros [?|[->|?]]; auto | intros [?|?]; auto].
Qed.

Lemma seen_shifts (seen ids : gset string) i :
  ({[ i ]} ∪ seen) ∪ ids = seen ∪ ({[ i ]} ∪ ids).
Proof.
  apply set_eq. intros x. rewrite !elem_of_union, elem_of_singleton. tauto.
Qed.

Lemma seen_twice (seen ids : gset string) : seen ∪ ids ∪ ids = seen ∪ ids.
Proof. apply set_eq. intros x. rewrite !elem_of_union. tauto. Qed.

(** Removing duplicates from two lists in a row: the second is filtered
    with the ids of the first as seen. *)
Lemma filterWith_seen_app seen a b :
  filterWith seenCallback seen (a ++ b)
  = filterWith seenCallback seen a ++ filterWith seenCallback (seen ∪ idsOf a) b.
Proof.
  revert seen. induction a as [|x a IH]; intros seen.
  - cbn [app filterWith]. unfold idsOf. cbn. by rewrite (right_id_L ∅ (∪)).
  - rewrite <- app_comm_cons, !filterWith_seen_cons, idsOf_cons.
    case_bool_decide as Hseen.
    + by rewrite IH, seen_absorbs.
    + by rewrite IH, seen_shifts.
Qed.

Lemma filterWith_seen_all seen l :
  (forall r, r ∈ l -> ruleId r ∈ seen) -> filterWith seenCallback seen l = [].
Proof.
  intros Hall. induction l as [|x l IH]; [done|].
  rewrite filterWith_seen_cons. rewrite bool_decide_eq_true_2 by (apply Hall; by left).
  apply IH. intros r Hr. apply Hall. by right.
Qed.

Lemma elem_of_idsOf r l : r ∈ l -> ruleId r ∈ idsOf l.
Proof.
  intros Hr. unfold idsOf. apply elem_of_list_to_set. by apply list_elem_of_fmap_2.
Qed.

Lemma dedup_repeat a b : dedup (a ++ a ++ b) = dedup (a ++ b).
Proof.
  unfold dedup. rewrite (filterWith_seen_app ∅ a (a ++ b)).
  rewrite (filterWith_seen_app (∅ ∪ idsOf a) a b).
  rewrite (filterWith_seen_app ∅ a b).
  rewrite (filterWith_seen_all (∅ ∪ idsOf a) a).
  - by rewrite seen_twice.
  - intros r Hr. apply elem_of_union. right. by apply elem_of_idsOf.
Qed.

(** X18: asking for the type "general" adds nothing: the general rules are
    in every bundle already, and the bundle has the same rules in the same
    order as for the same context without a type. *)
Theorem general_type_adds_nothing st idx context :
  indexOf st = Some idx ->
  exists b1 st1 b2 st2 l,
    recommendBundle (withType (Some "general") context) st = Some (b1, st1)
    /\ recommendBundle (withType None context) st = Some (b2, st2)
    /\ st1.(arrays) !! b1.(rules) = Some l
    /\ st2.(arrays) !! b2.(rules) = Some l.
Proof.
  intros Hidx.
  destruct (Analyzer.recommendBundle_keeps st idx (withType (Some "general") context) Hidx)
    as (b1 & st1 & Hrun1 & _ & _ & Hview1).
  destruct (Analyzer.recommendBundle_keeps st idx (withType None context) Hidx)
    as (b2 & st2 & Hrun2 & _ & _ & Hview2).
  injection Hview1 as _ _ Hlook1 _. injection Hview2 as _ _ Hlook2 _.
  exists b1, st1, b2, st2, (bundleRules idx (withType None context)).
  split; [done|]. split; [done|]. split; [|done].
  rewrite Hlook1. f_equal. unfold bundleRules, workingList.
  cbn [withType ctx_type ctx_language ctx_framework ctx_priorities facetRules Js.truthy].
  cbn [app]. by rewrite dedup_repeat.
Qed.

Lemma general_type_adds_nothing_witness :
  exists b1 st1 b2 st2 l,
    recommendBundle (withType (Some "general") Demo.context) Demo.store = Some (b1, st1)
    /\ recommendBundle (withType None Demo.context) Demo.store = Some (b2, st2)
    /\ st1.(arrays) !! b1.(rules) = Some l
    /\ st2.(arrays) !! b2.(rules) = Some l.
Proof. exact (general_type_adds_nothing Demo.store Demo.index Demo.context eq_refl). Defined.

Lemma filterWith_seen_keeps seen l :
  NoDup (ruleId <$> l) -> (forall r, r ∈ l -> ruleId r ∉ seen) ->
  filterWith seenCallback seen l = l.
Proof.
  revert seen. induction l as [|x l IH]; intros seen Hnd Hnew; [done|].
  rewrite fmap_cons in Hnd. apply NoDup_cons in Hnd as [Hx Hnd].
  rewrite filterWith_seen_cons.
  rewrite bool_decide_eq_false_2 by (apply Hnew; by left).
  f_equal. apply IH; [done|]. intros r Hr.
  rewrite not_elem_of_union, not_elem_of_singleton. split.
  - intros Heq. apply Hx. rewrite <- Heq. by apply list_elem_of_fmap_2.
  - apply Hnew. by right.
Qed.

Lemma bundleRules_fixed idx context :
  stableSort comparePriority (dedup (bundleRules idx context)) = bundleRules idx context.
Proof.
  assert (Hdedup : dedup (bundleRules idx context) = bundleRules idx context).
  { apply filterWith_seen_keeps; [|intros r _; apply not_elem_of_empty].
    unfold bundleRules. rewrite stableSort_perm. apply filterWith_seen_NoDup. }
  rewrite Hdedup. symmetry. apply stableSort_unique; [|done].
  apply stableSort_sorted.
Qed.

(** X19: the rules of a bundle are final: removing duplicates from them and
    sorting them once more, as [recommendBundle] does at its end, gives the
    same rules in the same order. *)
Theorem bundle_rules_are_final st idx context :
  indexOf st = Some idx ->
  exists b st' l,
    recommendBundle context st = Some (b, st')
    /\ st'.(arrays) !! b.(rules) = Some l
    /\ exists a st'',
         bind (deduplicateRules b.(rules)) sortByPriority st' = Some (a, st'')
         /\ st''.(arrays) !! a = Some l.
Proof.
  intros Hidx.
  destruct (Analyzer.recommendBundle_keeps st idx context Hidx)
    as (b & st' & Hrun & _ & _ & Hview).
  injection Hview as _ _ Hlook _.
  exists b, st', (bundleRules idx context). split; [done|]. split; [done|].
  unfold deduplicateRules, sortByPriority.
  erewrite bind_run by (apply Array_filterWith_run; exact Hlook).
  erewrite Array_sort_run by apply alloc_lookup.
  eexists _, _. split; [reflexivity|]. cbn [arrays alloc].
  rewrite list_lookup_insert_eq by (rewrite length_app; cbn; lia).
  f_equal. apply bundleRules_fixed.
Qed.

Lemma bundle_rules_are_final_witness :
  exists b st' l,
    recommendBundle Demo.context Demo.store = Some (b, st')
    /\ st'.(arrays) !! b.(rules) = Some l
    /\ exists a st'',
         bind (deduplicateRules b.(rules)) sortByPriority st' = Some (a, st'')
         /\ st''.(arrays) !! a = Some l.
Proof. exact (bundle_rules_are_final Demo.store Demo.index Demo.context eq_refl). Defined.

End Bundles.

(** ** The commands *)

Module Commands.
Import RuleAnalyzer Spec Describe Run.

Lemma selected_alloc st0 idx cur a st items :
  selected st0 idx cur a st ->
  selected st0 idx items (length st.(arrays)) (alloc st items).
Proof.
  intros (Hu & Hi & _). split; [|split].
  - eapply Analyzer.unchanged_trans; [exact Hu | apply alloc_unchanged].
  - eapply unchanged_index; [apply alloc_unchanged | done].
  - apply alloc_lookup.
Qed.

(** [if (o) rules = body(o)] where [body] filters an array with the
    elements [src]. *)
Lemma ifOption_wp {B} (Q : option (B * Store) -> Prop) st0 idx cur a st o body
    (cb : string -> Rule -> bool) src (k : nat -> M B) :
  selected st0 idx cur a st ->
  (forall s, body s st = Some (length st.(arrays), alloc st (List.filter (cb s) src))) ->
  (forall a' st', selected st0 idx (byOption o cb cur src) a' st' -> Q (k a' st')) ->
  Q (bind (Cli.ifOption o a body) k st).
Proof.
  intros Hsel Hbody HQ. unfold Cli.ifOption, byOption in *.
  destruct o as [s|]; [destruct (Js.truthy s)|].
  - erewrite bind_run by apply Hbody. apply HQ. by eapply selected_alloc.
  - by apply HQ.
  - by apply HQ.
Qed.

Lemma ifArray_wp {B} (Q : option (B * Store) -> Prop) st0 idx cur a st o
    (k : nat -> M B) :
  selected st0 idx cur a st ->
  (forall a' st', selected st0 idx (byTags o cur idx) a' st' -> Q (k a' st')) ->
  Q (bind (Cli.ifArray o a searchByTags) k st).
Proof.
  intros Hsel HQ. unfold Cli.ifArray, byTags in *. destruct o as [tags|].
  - destruct Hsel as (Hu & Hi & Ha).
    erewrite bind_run by (by apply (query_run st (tagsCallback tags))).
    apply HQ. by eapply selected_alloc.
  - by apply HQ.
Qed.

Lemma selected_start st idx :
  indexOf st = Some idx -> selected st idx idx st.(this_rules) st.
Proof. intros Hidx. split; [by split|]. by split. Qed.

Lemma listCommand_run st idx options :
  indexOf st = Some idx ->
  exists a st',
    Cli.listCommand options st = Some (a, st')
    /\ selected st idx (listed options idx) a st'.
Proof.
  intros Hidx. unfold Cli.listCommand.
  erewrite bind_run by reflexivity.
  eapply ifOption_wp with (cb := categoryCallback) (src := idx);
    [by apply selected_start | intros s; by apply (query_run st (categoryCallback s)) |].
  intros a1 st1 H1.
  eapply ifOption_wp with (cb := languageCallback) (src := idx);
    [exact H1 | intros s; apply (query_run st1 (languageCallback s)); apply H1 |].
  intros a2 st2 H2.
  eapply ifArray_wp; [exact H2|].
  intros a3 st3 H3. unfold bind, ret. by exists a3, st3.
Qed.

Lemma action_run ruleFiles (command : M nat) found :
  (exists a st',
     command (loaded ruleFiles) = Some (a, st') /\ st'.(arrays) !! a = Some found) ->
  Cli.action ruleFiles command = Some found.
Proof.
  intros (a & st' & Hrun & Hlook). unfold Cli.action.
  erewrite bind_run by apply Loading.initialize_loaded.
  erewrite bind_run by exact Hrun.
  unfold readArray. by rewrite Hlook.
Qed.

(** X20: the options of [list] do not combine.  With tags the command
    prints the rules that share a tag, whatever category and language are
    given; without tags and with a language, the rules of that language,
    whatever the category is; the category counts only when it is the only
    option. *)
Theorem list_takes_the_last_option ruleFiles options :
  Cli.action ruleFiles (Cli.listCommand options)
  = Some
      (match options.(Cli.list_tags) with
       | Some tags => List.filter (tagsCallback tags) (RuleLoader.loadAllRules ruleFiles)
       | None =>
           byOption options.(Cli.list_language) languageCallback
             (byOption options.(Cli.list_category) categoryCallback
                (RuleLoader.loadAllRules ruleFiles) (RuleLoader.loadAllRules ruleFiles))
             (RuleLoader.loadAllRules ruleFiles)
       end).
Proof.
  apply action_run.
  destruct (listCommand_run (loaded ruleFiles) _ options (Loading.loaded_index ruleFiles))
    as (a & st' & Hrun & _ & _ & Hlook).
  exists a, st'. split; [done|]. rewrite Hlook. unfold listed, byTags.
  by destruct options.(Cli.list_tags).
Qed.








End Commands.
